(** * hazana: the load runner (runner.go)

    A shallow embedding of the runner of the hazana load generator.  The
    repository holds two revisions of runner.go: the earlier one, where the
    linear ramp-up is written inline in [rampUp] and metrics are keyed by a
    request index (module [Runner1]), and the later one, where [rampUp]
    dispatches on a strategy name, metrics are keyed by a request label and
    [Run] returns a report (module [Runner2]).  What both revisions share
    ([spawnAttacker], [quitAttackers], [tearDownAttackers], [fullAttack],
    [collectResults]) is in section [Pool].

    Effects are explicit: every method of the runner is a function on a
    [world], the runner's fields together with the trace of the events the
    method causes (clones, Setup, goroutines started, channel sends,
    Teardown, log lines).  Time and scheduling are inputs: how many dispatch
    signals fit into a window and which outcomes the collecting goroutine
    processes meanwhile is given by a [phase]. *)

From Stdlib Require Import ZArith Lia PrimFloat FloatOps SpecFloat.
From stdpp Require Import base option list gmap strings.

Open Scope Z_scope.

(** ** Go's [int] on a 64-bit platform *)

Module GoInt.

Definition min_int : Z := - 2 ^ 63.
Definition max_int : Z := 2 ^ 63 - 1.

(** Two's complement wrap-around of a mathematical integer. *)
Definition wrap (z : Z) : Z := (z + 2 ^ 63) mod 2 ^ 64 - 2 ^ 63.

Definition mul (a b : Z) : Z := wrap (a * b).

(** [a / b] truncates towards zero; the divisor is not zero where the
    runner divides. *)
Definition div (a b : Z) : Z := wrap (Z.quot a b).

Definition in_range (z : Z) : Prop := min_int <= z <= max_int.

End GoInt.

(** ** Go's [float64]

    Rocq's primitive floats are IEEE 754 binary64 with round to nearest
    even, as Go's [float64]. *)

Module GoFloat.

(** [float64(n)] for an [int] [n]. *)
Definition of_int (n : Z) : float :=
  SF2Prim (binary_normalize prec emax n 0 false).

(** [math.Trunc]: the integer part, keeping the sign; infinities and NaN
    are returned as they are. *)
Definition Trunc (f : float) : float :=
  match Prim2SF f with
  | S754_finite s m e =>
      if e <? 0
      then let q := Z.pos m / 2 ^ (- e) in
           SF2Prim (binary_normalize prec emax (if s then - q else q) 0 s)
      else f
  | _ => f
  end.

(** [int(f)]: the fraction is discarded.  Go leaves the result open when
    the value does not fit; amd64 yields the smallest [int], also for
    infinities and NaN. *)
Definition to_int (f : float) : Z :=
  match Prim2SF f with
  | S754_zero _ => 0
  | S754_finite s m e =>
      let a := if 0 <=? e then Z.pos m * 2 ^ e else Z.pos m / 2 ^ (- e) in
      let z := if s then - a else a in
      if (GoInt.min_int <=? z) && (z <=? GoInt.max_int) then z else GoInt.min_int
  | _ => GoInt.min_int
  end.

End GoFloat.

(** ** Data *)

Definition error := string.

Record Config := mkConfig {
  RPS : Z;
  AttackTimeSec : Z;
  RampupTimeSec : Z;
  MaxAttackers : Z;
  OutputFilename : string;
  Verbose : bool
}.

(** What [Do] returns.  The earlier revision keys the metrics by
    [RequestIndex], the later one by [RequestLabel]. *)
Record DoResult := mkDoResult {
  RequestLabel : string;
  RequestIndex : Z;
  StatusCode : Z;
  Error : option error
}.

(** One outcome as it travels over the results channel: what [Do] returned
    and how long the call took (nanoseconds). *)
Record result := mkResult {
  doResult : DoResult;
  elapsed : Z
}.

(** An instance of the user's Attack implementation.  The prototype is
    instance [0]; the n-th call of [Clone] on it yields instance [n]. *)
Definition Attack := nat.

(** The Attack interface, implemented outside the runner.  [Do a k] is what
    the k-th call of [Do] on instance [a] returns. *)
Class AttackImpl := {
  Setup : Attack -> Config -> option error;
  Do : Attack -> nat -> DoResult;
  Teardown : Attack -> option error
}.

(** The operations of [Metrics] the runner calls; the type is declared in
    metrics.go, outside runner.go. *)
Class MetricsOps (M : Type) := {
  new_Metrics : M;
  add : M -> result -> M;
  updateLatencies : M -> M;
  Rate : M -> float
}.

(** ** Events *)

Inductive logmsg :=
| LogBanner
| LogSpawn (n : Z)
| LogSetupFailed (n : Z) (err : error)
| LogTestSetupFailed (err : error)
| LogTestCall (r : DoResult)
| LogBeginFullAttack (secs : Z)
| LogEndFullAttack
| LogBeginRampup (secs : Z)
| LogBelowTarget (rate : float) (rps : Z)
| LogReachedMax (n : Z)
| LogEndRampup (n : Z)
| LogStopping (n : Z)
| LogTearingDown (n : Z)
| LogTeardownFailed (err : error).

Inductive event :=
| EvLog (m : logmsg)
| EvClone (a : Attack)                        (* prototype.Clone() *)
| EvSetup (a : Attack) (err : option error)   (* a.Setup(config) *)
| EvGo (a : Attack)                           (* go attack(a, next, quit, results) *)
| EvGoCollect                                 (* go r.collectResults() *)
| EvLimiter (rps : Z)                         (* ratelimit.New(rps) *)
| EvTake                                      (* limiter.Take() *)
| EvNext                                      (* r.next <- true *)
| EvQuit                                      (* r.quit <- true *)
| EvDo (a : Attack)                           (* a.Do() *)
| EvTeardown (a : Attack) (err : option error)
| EvValidate                                  (* c.Validate() *)
| EvPrint (line : string)
| EvUsage                                     (* flag.Usage() *)
| EvOutput                                    (* the report is written *)
| EvFatal                                     (* log.Fatal *)
| EvExit (code : Z).                          (* os.Exit(code) *)

(** What the clock and the scheduler decide in one dispatch window: the
    number of rounds of the dispatch loop and the outcomes the collecting
    goroutine takes off the results channel meanwhile. *)
Record phase := mkPhase {
  ticks : nat;
  outcomes : list result
}.

Section Pool.

Context {M : Type} {MO : MetricsOps M} {AI : AttackImpl}.
Context {K : Type} `{Countable K}.

(** The two cells an aggregation closure can write: the runner's metrics
    map and the record of the current ramp-up step ([nil] before the
    first step). *)
Definition store : Type := gmap K M * option M.

(** [func(r result) result]; the result handed back is the argument. *)
Definition pipeline : Type := result -> store -> store.

Record world := mkWorld {
  config : Config;
  attackers : list Attack;
  metrics : gmap K M;
  resultsPipeline : option pipeline;
  rampMetrics : option M;
  cloned : nat;
  trace : list event
}.

Definition emit (e : event) (w : world) : world :=
  mkWorld (config w) (attackers w) (metrics w) (resultsPipeline w)
          (rampMetrics w) (cloned w) (trace w ++ [e]).

Definition log (m : logmsg) (w : world) : world := emit (EvLog m) w.

Definition logVerbose (m : logmsg) (w : world) : world :=
  if Verbose (config w) then log m w else w.

Definition set_attackers (l : list Attack) (w : world) : world :=
  mkWorld (config w) l (metrics w) (resultsPipeline w)
          (rampMetrics w) (cloned w) (trace w).

Definition set_store (st : store) (w : world) : world :=
  mkWorld (config w) (attackers w) st.1 (resultsPipeline w)
          st.2 (cloned w) (trace w).

Definition set_resultsPipeline (p : option pipeline) (w : world) : world :=
  mkWorld (config w) (attackers w) (metrics w) p
          (rampMetrics w) (cloned w) (trace w).

Definition set_rampMetrics (m : option M) (w : world) : world :=
  mkWorld (config w) (attackers w) (metrics w) (resultsPipeline w)
          m (cloned w) (trace w).

(** [len(r.attackers)] *)
Definition len (w : world) : Z := Z.of_nat (length (attackers w)).

(** [r.prototype.Clone()] *)
Definition Clone (w : world) : Attack * world :=
  let a := S (cloned w) in
  (a, emit (EvClone a)
        (mkWorld (config w) (attackers w) (metrics w) (resultsPipeline w)
                 (rampMetrics w) a (trace w))).

Definition spawnAttacker (w : world) : world :=
  let w := logVerbose (LogSpawn (len w + 1)) w in
  let '(attacker, w) := Clone w in
  match Setup attacker (config w) with
  | Some err =>
      let w := emit (EvSetup attacker (Some err)) w in
      log (LogSetupFailed (len w + 1) err) w
  | None =>
      let w := emit (EvSetup attacker None) w in
      let w := set_attackers (attackers w ++ [attacker]) w in
      emit (EvGo attacker) w
  end.

(** [r.resultsPipeline(<-r.results)] for the outcomes that arrive.  No
    outcome arrives before [init] has set the pipeline. *)
Definition collectResults (rs : list result) (w : world) : world :=
  match resultsPipeline w with
  | Some p => set_store (foldl (fun st s => p s st) (metrics w, rampMetrics w) rs) w
  | None => w
  end.

(** [for time.Now().Before(deadline) { limiter.Take(); r.next <- true }],
    for the [n] rounds that the phase reports as completed.  The send is a
    handoff on an unbuffered channel and completes when the goroutine of an
    attacker takes it; that a run with nobody to take it hangs at the send
    is not represented, so what is proved of a phase with rounds holds of
    the runs in which the sends were taken. *)
Fixpoint dispatchLoop (n : nat) (w : world) : world :=
  match n with
  | O => w
  | S n' => dispatchLoop n' (emit EvNext (emit EvTake w))
  end.

Definition dispatch (p : phase) (w : world) : world :=
  collectResults (outcomes p) (dispatchLoop (ticks p) w).

Definition fullAttack (p : phase) (w : world) : world :=
  let w := logVerbose (LogBeginFullAttack (AttackTimeSec (config w) - RampupTimeSec (config w))) w in
  let w := emit (EvLimiter (RPS (config w))) w in
  let w := dispatch p w in
  logVerbose LogEndFullAttack w.

Definition quitAttackers (w : world) : world :=
  let w := logVerbose (LogStopping (len w)) w in
  foldl (fun w _ => emit EvQuit w) w (attackers w).

Definition tearDownAttackers (w : world) : world :=
  let w := logVerbose (LogTearingDown (len w)) w in
  foldl (fun w each =>
           match Teardown each with
           | Some err => log (LogTeardownFailed err) (emit (EvTeardown each (Some err)) w)
           | None => emit (EvTeardown each None) w
           end) w (attackers w).

(** [for s := a; s < b; s++ { body }] where the body changes neither [s]
    nor [b]: at most [b - a] rounds, fewer when the body breaks (it then
    returns [false]). *)
Fixpoint forRounds (n : nat) (s : Z) (body : Z -> world -> bool * world)
         (w : world) : world :=
  match n with
  | O => w
  | S n' =>
      let '(continue, w') := body s w in
      if continue then forRounds n' (s + 1) body w' else w'
  end.

Definition forRange (a b : Z) (body : Z -> world -> bool * world)
           (w : world) : world :=
  forRounds (Z.to_nat (b - a)) a body w.

End Pool.

(** What a call does: it returns, or it panics on the way (the world is the
    one reached at that point). *)
Inductive outcome (W : Type) :=
| Returns (w : W)
| Panics (w : W).
Arguments Returns {W} w.
Arguments Panics {W} w.

Definition world_of {W : Type} (o : outcome W) : W :=
  match o with Returns w => w | Panics w => w end.

(** The inputs of one run that the runner does not control: the dispatch
    window of every ramp-up second and of the full attack, whether the
    output file can be created, and the clock readings of the report. *)
Record Env := mkEnv {
  rampObs : Z -> phase;
  fullObs : phase;
  createFails : bool;
  startedAt : Z;
  finishedAt : Z
}.

(** ** The earlier revision of runner.go *)

Module Runner1.
Section Runner.

Context {M : Type} {MO : MetricsOps M} {AI : AttackImpl}.
(** [Config.Validate], declared outside runner.go. *)
Variable Validate : Config -> list string.

Abbreviation world := (@world M Z _ _).
Abbreviation pipeline := (@pipeline M Z _ _).

Definition addResult (s : result) (metrics : gmap Z M) : gmap Z M :=
  let k := RequestIndex (doResult s) in
  let m := match metrics !! k with
           | Some m => m
           | None => new_Metrics
           end in
  <[k := add m s]> metrics.

(** [r.addResult] as the value of [r.resultsPipeline]. *)
Definition addResultPipe : pipeline :=
  fun s st => (addResult s st.1, st.2).

(** The closure of a ramp-up step:
    [func(rs result) result { rampMetrics.add(rs); return rs }].  It is
    installed only after [rampMetrics] has been assigned. *)
Definition rampPipe : pipeline :=
  fun s st => (st.1, (fun m => add m s) <$> st.2).

Definition newRunner (c : Config) : world :=
  mkWorld c [] ∅ None None O [].

Definition init (w : world) : world :=
  mkWorld (config w) [] ∅ (Some addResultPipe) (rampMetrics w) (cloned w) (trace w).

Definition test (w : world) : world :=
  let '(probe, w) := Clone w in
  match Setup probe (config w) with
  | Some err =>
      log (LogTestSetupFailed err) (emit (EvSetup probe (Some err)) w)
  | None =>
      let w := emit (EvSetup probe None) w in
      let w := emit (EvDo probe) w in
      let w := log (LogTestCall (Do probe 1%nat)) w in
      emit (EvTeardown probe (Teardown probe)) w
  end.

(** The rate of ramp-up second [i]: lines 137-140. *)
Definition stepRate (c : Config) (i : Z) : Z :=
  let rps := GoInt.div (GoInt.mul i (RPS c)) (RampupTimeSec c) in
  if rps =? 0 then 1 else rps.

Definition spawnThresholdRatio : float := 0x1.ccccccccccccdp-1%float.

(** Line 155: [int(math.Trunc(float64(rps)/rampMetrics.Rate)) * len(r.attackers)]. *)
Definition wantedAttackers (rate : float) (rps : Z) (n : Z) : Z :=
  GoInt.mul (GoFloat.to_int (GoFloat.Trunc (GoFloat.of_int rps / rate))) n.

(** The body of the loop of lines 156-165.  The [break] sits inside the
    test of [Verbose]: a quiet run keeps counting without spawning. *)
Definition spawnRound (s : Z) (w : world) : bool * world :=
  if s <? MaxAttackers (config w) then (true, spawnAttacker w)
  else if Verbose (config w)
       then (false, log (LogReachedMax (MaxAttackers (config w))) w)
       else (true, w).

(** The test of line 149. *)
Definition belowTarget (rate : float) (rps : Z) : bool :=
  ((0 <? rate) && (rate <? GoFloat.of_int rps))%float.

(** The test of line 154. *)
Definition belowThreshold (rate : float) (rps : Z) : bool :=
  (rate / GoFloat.of_int rps <? spawnThresholdRatio)%float.

(** Lines 149-167: what a step does once its rate [rate] is measured. *)
Definition growPool (rate : float) (rps : Z) (w : world) : world :=
  if belowTarget rate rps then
    let w := logVerbose (LogBelowTarget rate rps) w in
    if belowThreshold rate rps then
      let wanted := wantedAttackers rate rps (len w) in
      forRange (len w) wanted spawnRound w
    else w
  else w.

(** The rate the step reads after [updateLatencies]. *)
Definition measuredRate (w : world) : float :=
  match rampMetrics w with
  | Some m => Rate m
  | None => 0%float
  end.

(** One round of the loop of [rampUp], lines 129-167. *)
Definition rampStep (e : Env) (w : world) (i : Z) : world :=
  let w := set_rampMetrics (Some new_Metrics) w in
  let w := set_resultsPipeline (Some rampPipe) w in
  let rps := stepRate (config w) i in
  let w := emit (EvLimiter rps) w in
  let w := dispatch (rampObs e i) w in
  let w := emit EvTake w in
  let w := set_rampMetrics (updateLatencies <$> rampMetrics w) w in
  growPool (measuredRate w) rps w.

(** Seconds [1], ..., [n]. *)
Definition seconds (n : nat) : list Z := Z.of_nat <$> seq 1 n.

(** [rampUp] up to the end of second [n]. *)
Definition rampSteps (e : Env) (n : nat) (w : world) : world :=
  let w := logVerbose (LogBeginRampup (RampupTimeSec (config w))) w in
  let w := spawnAttacker w in
  let w := set_rampMetrics None w in
  foldl (rampStep e) w (seconds n).

(** The last log line reads [rampMetrics.Rate]: with no ramp-up second
    the pointer is still nil. *)
Definition rampUp (e : Env) (w : world) : outcome world :=
  let w := rampSteps e (Z.to_nat (RampupTimeSec (config w))) w in
  let w := set_resultsPipeline (Some addResultPipe) w in
  if Verbose (config w) then
    match rampMetrics w with
    | Some _ => Returns (log (LogEndRampup (len w)) w)
    | None => Panics w
    end
  else Returns w.

Definition reportMetrics (e : Env) (w : world) : world :=
  if negb (String.eqb (OutputFilename (config w)) "") && createFails e
  then emit EvFatal w
  else
    let w := set_store (updateLatencies <$> metrics w, rampMetrics w) w in
    emit EvOutput w.

Definition run (e : Env) (w : world) : outcome world :=
  let w := emit EvGoCollect w in
  match rampUp e w with
  | Panics w => Panics w
  | Returns w =>
      let w := fullAttack (fullObs e) w in
      let w := quitAttackers w in
      let w := tearDownAttackers w in
      Returns (reportMetrics e w)
  end.

(** [Run(a, c)]; [oSample] is the value of the sample flag. *)
Definition Run (oSample : bool) (e : Env) (c : Config) : outcome world :=
  let w := newRunner c in
  if oSample then Returns (test w)
  else
    let w := emit EvValidate w in
    match Validate c with
    | [] => run e (init w)
    | msg =>
        let w := foldl (fun w each => emit (EvPrint each) w) w msg in
        Returns (emit (EvExit 0) (emit EvUsage (emit (EvPrint "") w)))
    end.

End Runner.
End Runner1.

(** ** The later revision of runner.go *)

Record RunReport (M : Type) := mkRunReport {
  StartedAt : Z;
  FinishedAt : Z;
  Configuration : Config;
  Metrics : gmap string M
}.
Arguments mkRunReport {M}.
Arguments StartedAt {M}.
Arguments FinishedAt {M}.
Arguments Configuration {M}.
Arguments Metrics {M}.

Module Runner2.
Section Runner.

Context {M : Type} {MO : MetricsOps M} {AI : AttackImpl}.

Abbreviation world := (@world M string _ _).
Abbreviation pipeline := (@pipeline M string _ _).

(** Declared outside runner.go: the methods [Validate] and
    [rampupStrategy] of [Config], and [execute] of the two ramp-up
    strategies, which may do anything to the runner. *)
Variable Validate : Config -> list string.
Variable rampupStrategy : Config -> string.
Variable linearStrategy : world -> world.
Variable spawnAsWeNeedStrategy : world -> world.

Definition addResult (s : result) (metrics : gmap string M) : gmap string M :=
  let k := RequestLabel (doResult s) in
  let m := match metrics !! k with
           | Some m => m
           | None => new_Metrics
           end in
  <[k := add m s]> metrics.

Definition addResultPipe : pipeline :=
  fun s st => (addResult s st.1, st.2).

Definition newRunner (c : Config) : world :=
  mkWorld c [] ∅ None None O [].

Definition init (w : world) : world :=
  mkWorld (config w) [] ∅ (Some addResultPipe) (rampMetrics w) (cloned w) (trace w).

(** [for s := count; s > 0; s-- { probe.Do(); log }]; [k] calls of [Do]
    have been made before. *)
Fixpoint testCalls (n : nat) (k : nat) (probe : Attack) (w : world) : world :=
  match n with
  | O => w
  | S n' =>
      let w := emit (EvDo probe) w in
      let w := log (LogTestCall (Do probe (S k))) w in
      testCalls n' (S k) probe w
  end.

Definition test (count : Z) (w : world) : world :=
  let '(probe, w) := Clone w in
  match Setup probe (config w) with
  | Some err =>
      log (LogTestSetupFailed err) (emit (EvSetup probe (Some err)) w)
  | None =>
      let w := emit (EvSetup probe None) w in
      let w := testCalls (Z.to_nat count) O probe w in
      emit (EvTeardown probe (Teardown probe)) w
  end.

Definition rampUp (w : world) : world :=
  let strategy := rampupStrategy (config w) in
  let w := logVerbose (LogBeginRampup (RampupTimeSec (config w))) w in
  let w := if String.eqb strategy "linear" then linearStrategy w
           else if String.eqb strategy "exp2" then spawnAsWeNeedStrategy w
           else w in
  let w := set_resultsPipeline (Some addResultPipe) w in
  logVerbose (LogEndRampup (len w)) w.

Definition reportMetrics (e : Env) (w : world) : RunReport M * world :=
  let w := set_store (updateLatencies <$> metrics w, rampMetrics w) w in
  (mkRunReport (startedAt e) (finishedAt e) (config w) (metrics w), w).

Definition run (e : Env) (w : world) : RunReport M * world :=
  let w := emit EvGoCollect w in
  let w := rampUp w in
  let w := fullAttack (fullObs e) w in
  let w := quitAttackers w in
  let w := tearDownAttackers w in
  reportMetrics e w.

(** [Run(a, c)]; [oSample] is the value of the sample flag.  No report
    comes back when the process exits. *)
Definition Run (oSample : Z) (e : Env) (c : Config) : option (RunReport M) * world :=
  let w := newRunner c in
  let w := logVerbose LogBanner w in
  if 0 <? oSample then
    let w := test oSample w in
    (None, emit (EvExit 0) w)
  else
    let w := emit EvValidate w in
    match Validate c with
    | [] => let '(report, w) := run e (init w) in (Some report, w)
    | msg =>
        let w := foldl (fun w each => emit (EvPrint each) w) w msg in
        (None, emit (EvExit 0) (emit EvUsage (emit (EvPrint "") w)))
    end.

End Runner.
End Runner2.

(** ** Metrics and execution units, from the specification *)

(** The Metrics record, its [add] and its finalisation ([updateLatencies])
    are declared in metrics.go, which runner.go only calls. *)
Module SpecMetrics.

(** Modelled from the spec: the Metrics record of metrics.go.  "Per-label
    running aggregate: total call count, error count, achieved rate
    (derived: count / elapsed window), latency distribution summary
    (derived on finalize, not per-sample)". *)
Record t := mk {
  Requests : Z;
  Errors : Z;
  Latencies : list Z;
  rate : float
}.

Definition new : t := mk 0 0 [] 0%float.

(** Modelled from the spec: [Metrics.add] of metrics.go.  "add(outcome)
    increments count, increments error count if the outcome carries an
    error, and records the latency sample." *)
Definition add (m : t) (s : result) : t :=
  mk (Requests m + 1)
     (match Error (doResult s) with
      | Some _ => Errors m + 1
      | None => Errors m
      end)
     (Latencies m ++ [elapsed s])
     (rate m).

(** Modelled from the spec: [Metrics.updateLatencies] of metrics.go.
    finalize "computes derived rate and latency summary from the
    accumulated raw samples", the rate being "count / elapsed window".  The
    elapsed window, in seconds, is a parameter; the samples are kept as
    they are. *)
Definition finalize (window : float) (m : t) : t :=
  mk (Requests m) (Errors m) (Latencies m)
     (GoFloat.of_int (Requests m) / window)%float.

Definition ops (window : float) : MetricsOps t :=
  Build_MetricsOps t new add (finalize window) rate.

(** What the report shows of a record: count, error count and rate. *)
Definition summary (m : t) : Z * Z * float := (Requests m, Errors m, rate m).

End SpecMetrics.

(** The execution unit of an attacker is the function [attack], which
    runner.go starts as a goroutine and which is declared outside it. *)
Module Unit.

(** Modelled from the spec: the states of the execution unit ([attack]).
    "State machine with states {Waiting, Calling, Retired}." *)
Inductive state := Waiting | Calling | Retired.

(** Modelled from the spec: the steps of the execution units ([attack])
    while the runner fans out the quit signals.  "From Waiting: on
    receiving a quit signal -> Retired (terminal, no further signals
    consumed)"; from Calling, "emit the resulting Call Outcome on the
    outcome channel, return to Waiting".  A send on the quit channel is a
    synchronous handoff: it completes when some Waiting unit takes it. *)
Inductive step : list state -> bool -> list state -> Prop :=
| takes_quit (us : list state) (i : nat) :
    us !! i = Some Waiting ->
    step us true (<[i := Retired]> us)
| finishes_call (us : list state) (i : nat) :
    us !! i = Some Calling ->
    step us false (<[i := Waiting]> us).

(** [fanout n us us']: from [us] the units reach [us'] while exactly [n]
    quit signals are taken. *)
Inductive fanout : nat -> list state -> list state -> Prop :=
| fanout_done us : fanout O us us
| fanout_quit n us us' us'' :
    step us true us' -> fanout n us' us'' -> fanout (S n) us us''
| fanout_call n us us' us'' :
    step us false us' -> fanout n us' us'' -> fanout n us us''.

Definition is_live (u : state) : bool :=
  match u with Retired => false | _ => true end.

(** The units that have not retired. *)
Definition live (us : list state) : nat :=
  length (List.filter is_live us).

End Unit.

(** ** Reading a trace *)

Definition goroutines (t : list event) : list Attack :=
  omap (fun e => match e with EvGo a => Some a | _ => None end) t.

Definition clones (t : list event) : list Attack :=
  omap (fun e => match e with EvClone a => Some a | _ => None end) t.

Definition teardowns (t : list event) : list (Attack * option error) :=
  omap (fun e => match e with EvTeardown a r => Some (a, r) | _ => None end) t.

Definition calls (t : list event) : list Attack :=
  omap (fun e => match e with EvDo a => Some a | _ => None end) t.

Definition quits (t : list event) : nat :=
  length (omap (fun e => match e with EvQuit => Some tt | _ => None end) t).

Definition dispatches (t : list event) : nat :=
  length (omap (fun e => match e with EvNext => Some tt | _ => None end) t).

Definition is_log (e : event) : bool :=
  match e with EvLog _ => true | _ => false end.

(** The events of a full run: validation, the pool, the collector, the
    dispatch of ramp-up and full attack, shutdown and report. *)
Definition is_pipeline_event (e : event) : bool :=
  match e with
  | EvValidate | EvGo _ | EvGoCollect | EvLimiter _ | EvTake | EvNext
  | EvQuit | EvOutput | EvUsage | EvPrint _ => true
  | _ => false
  end.

(** The events of [k] calls on the probe of the sample mode, after [j]
    earlier ones. *)
Definition sampleCalls `{AttackImpl} (probe : Attack) (j k : nat) : list event :=
  flat_map (fun i => [EvDo probe; EvLog (LogTestCall (Do probe i))]) (seq (S j) k).

Section Observations.

Context {M : Type} {K : Type} `{Countable K}.

(** The goroutines started so far are the registered attackers. *)
Definition pool_consistent (w : @world M K _ _) : Prop :=
  goroutines (trace w) = attackers w.

(** A pool that is not yet shut down: no quit signal has been sent and no
    Teardown called. *)
Definition before_shutdown (w : @world M K _ _) : Prop :=
  pool_consistent w /\ quits (trace w) = O /\ teardowns (trace w) = [].

(** The number of calls of [spawnAttacker] made so far: every call clones
    the prototype once, and nothing else of a run does. *)
Definition spawnCalls (w : @world M K _ _) : nat := length (clones (trace w)).

End Observations.

(** Two metrics maps show the same: the same labels, and under every label
    the same count, error count and rate. *)
Definition same_summary (m1 m2 : gmap string SpecMetrics.t) : Prop :=
  forall label : string,
    SpecMetrics.summary <$> (m1 !! label) = SpecMetrics.summary <$> (m2 !! label).

(** ** Implementations used in the examples *)

Module Stub.

(** Every Setup and Teardown succeeds. *)
Definition sound : AttackImpl :=
  Build_AttackImpl (fun _ _ => None)
                   (fun _ _ => mkDoResult "ping" 0 200 None)
                   (fun _ => None).

(** Every Setup fails. *)
Definition broken : AttackImpl :=
  Build_AttackImpl (fun _ _ => Some "no route")
                   (fun _ _ => mkDoResult "ping" 0 200 None)
                   (fun _ => None).

(** Teardown fails on the instances with an odd number. *)
Definition leaky : AttackImpl :=
  Build_AttackImpl (fun _ _ => None)
                   (fun _ _ => mkDoResult "ping" 0 200 None)
                   (fun a => if Nat.odd a then Some "stuck" else None).

Definition quiet : Config := mkConfig 10 20 5 10 "" false.
Definition loud : Config := mkConfig 10 20 5 10 "" true.

(** One outcome a second during ramp-up, measured over windows of one
    second; three dispatches and two outcomes in the full attack. *)
Definition metrics1s : MetricsOps SpecMetrics.t := SpecMetrics.ops 1%float.

Definition ok (label : string) : result := mkResult (mkDoResult label 0 200 None) 1000.
Definition failed (label : string) : result :=
  mkResult (mkDoResult label 0 500 (Some "boom")) 1000.

Definition slow : Env :=
  mkEnv (fun _ => mkPhase 2 [ok "ping"])
        (mkPhase 3 [ok "ping"; failed "ping"]) false 100 200.

(** A pool of one attacker with its goroutine, after a second that
    measured six calls. *)
Definition one_attacker : @world SpecMetrics.t Z _ _ :=
  mkWorld quiet [1%nat] ∅ None (Some (SpecMetrics.mk 6 0 [] 6%float)) 1
          [EvClone 1%nat; EvSetup 1%nat None; EvGo 1%nat].

End Stub.

(** * Properties *)

Ltac unfold_ops :=
  unfold logVerbose, log, emit, set_attackers, set_store,
         set_resultsPipeline, set_rampMetrics, Clone, len.

Section TraceFacts.

Lemma goroutines_app t1 t2 : goroutines (t1 ++ t2) = goroutines t1 ++ goroutines t2.
Proof. apply omap_app. Qed.

Lemma clones_app t1 t2 : clones (t1 ++ t2) = clones t1 ++ clones t2.
Proof. apply omap_app. Qed.

Lemma teardowns_app t1 t2 : teardowns (t1 ++ t2) = teardowns t1 ++ teardowns t2.
Proof. apply omap_app. Qed.

Lemma calls_app t1 t2 : calls (t1 ++ t2) = calls t1 ++ calls t2.
Proof. apply omap_app. Qed.

Lemma quits_app t1 t2 : quits (t1 ++ t2) = (quits t1 + quits t2)%nat.
Proof. unfold quits. by rewrite omap_app, length_app. Qed.

Lemma dispatches_app t1 t2 : dispatches (t1 ++ t2) = (dispatches t1 + dispatches t2)%nat.
Proof. unfold dispatches. by rewrite omap_app, length_app. Qed.

End TraceFacts.

Create Rewrite HintDb trace_db.
#[export] Hint Rewrite goroutines_app clones_app teardowns_app calls_app
  quits_app dispatches_app : trace_db.

Section PoolFacts.

Context {M : Type} {MO : MetricsOps M} {AI : AttackImpl}.
Context {K : Type} `{Countable K}.

Abbreviation world := (@world M K _ _).

Lemma logVerbose_attackers m (w : world) : attackers (logVerbose m w) = attackers w.
Proof. unfold_ops. by destruct (Verbose _). Qed.

Lemma logVerbose_config m (w : world) : config (logVerbose m w) = config w.
Proof. unfold_ops. by destruct (Verbose _). Qed.

Lemma logVerbose_cloned m (w : world) : cloned (logVerbose m w) = cloned w.
Proof. unfold_ops. by destruct (Verbose _). Qed.

Lemma logVerbose_trace m (w : world) :
  trace (logVerbose m w) = trace w ++ (if Verbose (config w) then [EvLog m] else []).
Proof. unfold_ops. destruct (Verbose _); cbn; by rewrite ?app_nil_r. Qed.

Lemma logVerbose_store m (w : world) :
  metrics (logVerbose m w) = metrics w /\
  rampMetrics (logVerbose m w) = rampMetrics w /\
  resultsPipeline (logVerbose m w) = resultsPipeline w.
Proof. unfold_ops. by destruct (Verbose _). Qed.

(** The effect of [spawnAttacker], by the result of Setup. *)
Lemma spawnAttacker_eq (w : world) :
  let a := S (cloned w) in
  let pre := (if Verbose (config w) then [EvLog (LogSpawn (len w + 1))] else [])
               ++ [EvClone a] in
  config (spawnAttacker w) = config w /\
  cloned (spawnAttacker w) = a /\
  metrics (spawnAttacker w) = metrics w /\
  rampMetrics (spawnAttacker w) = rampMetrics w /\
  resultsPipeline (spawnAttacker w) = resultsPipeline w /\
  match Setup a (config w) with
  | Some err =>
      attackers (spawnAttacker w) = attackers w /\
      trace (spawnAttacker w) =
        trace w ++ pre ++ [EvSetup a (Some err); EvLog (LogSetupFailed (len w + 1) err)]
  | None =>
      attackers (spawnAttacker w) = attackers w ++ [a] /\
      trace (spawnAttacker w) = trace w ++ pre ++ [EvSetup a None; EvGo a]
  end.
Proof.
  unfold spawnAttacker. unfold_ops.
  destruct (Verbose (config w)) eqn:Hv; cbn;
    destruct (Setup (S (cloned w)) (config w)) eqn:Hs; cbn;
    rewrite ?Hv; cbn; rewrite <- ?app_assoc; cbn; auto 10.
Qed.

End PoolFacts.

Section UnitFacts.

Import Unit.

Lemma live_insert (us : list state) (i : nat) (u v : state) :
  us !! i = Some u ->
  (live (<[i := v]> us) + (if is_live u then 1 else 0)
   = live us + (if is_live v then 1 else 0))%nat.
Proof.
  revert i. induction us as [|x us IH]; intros [|i] Hi; try discriminate.
  - injection Hi as ->. unfold live. cbn.
    destruct (is_live u), (is_live v); cbn; lia.
  - cbn in Hi. specialize (IH i Hi). unfold live in *. simpl.
    destruct (is_live x); simpl; lia.
Qed.

Lemma live_zero (us : list state) :
  live us = O -> us = replicate (length us) Retired.
Proof.
  induction us as [|x us IH]; [done|].
  unfold live in *. cbn. destruct x; cbn; try discriminate.
  intros Hz. by rewrite <- IH.
Qed.

Lemma step_length us b us' : step us b us' -> length us' = length us.
Proof. destruct 1; apply length_insert. Qed.

(** Every quit signal retires one live unit; a unit that comes back from
    a call stays live. *)
Lemma fanout_live n us us' :
  fanout n us us' -> (live us' + n = live us)%nat /\ length us' = length us.
Proof.
  induction 1 as [us | n us us' us'' Hs _ [IH1 IH2] | n us us' us'' Hs _ [IH1 IH2]].
  - split; [lia | done].
  - inversion Hs as [us0 i Hi | ]; subst.
    pose proof (live_insert us i Waiting Retired Hi) as Hl. cbn in Hl.
    rewrite length_insert in IH2. split; [lia | done].
  - inversion Hs as [ | us0 i Hi]; subst.
    pose proof (live_insert us i Calling Waiting Hi) as Hl. cbn in Hl.
    rewrite length_insert in IH2. split; [lia | done].
Qed.

(** As many quit signals as live units: every unit ends Retired, and no
    further quit signal could be taken. *)
Lemma fanout_retires_all n us us' :
  live us = n -> fanout n us us' ->
  us' = replicate (length us) Retired /\ (forall us'', ~ step us' true us'').
Proof.
  intros Hn Hf. destruct (fanout_live _ _ _ Hf) as [Hl Hlen].
  assert (live us' = O) as Hz by lia.
  pose proof (live_zero _ Hz) as Hr. rewrite Hlen in Hr. split; [done|].
  intros us'' Hs. rewrite Hr in Hs.
  inversion Hs as [us0 i Hi | ]; subst.
  apply lookup_replicate in Hi as [? _]. discriminate.
Qed.

End UnitFacts.

Section PoolClaims.

Context {M : Type} {MO : MetricsOps M} {AI : AttackImpl}.
Context {K : Type} `{Countable K}.

Abbreviation world := (@world M K _ _).

(** C6: when Setup of the clone fails, [spawnAttacker] leaves the list of
    attackers as it was and starts no goroutine; when Setup succeeds the
    clone is appended to the list and one goroutine is started for it.
    In both cases exactly one clone is made and the call returns (the
    function is total). *)
Theorem spawnAttacker_registers_iff_setup_ok (w : world) :
  let a := S (cloned w) in
  let w' := spawnAttacker w in
  clones (trace w') = clones (trace w) ++ [a] /\
  match Setup a (config w) with
  | Some _ =>
      attackers w' = attackers w /\
      goroutines (trace w') = goroutines (trace w)
  | None =>
      attackers w' = attackers w ++ [a] /\
      goroutines (trace w') = goroutines (trace w) ++ [a]
  end.
Proof.
  cbn zeta.
  destruct (spawnAttacker_eq w) as (_ & _ & _ & _ & _ & Hs).
  destruct (Setup (S (cloned w)) (config w)) as [err|];
    destruct Hs as [Ha Ht]; rewrite Ht, Ha;
    autorewrite with trace_db;
    destruct (Verbose (config w)); cbn; by rewrite ?app_nil_r.
Qed.

Lemma spawnAttacker_consistent (w : world) :
  pool_consistent w -> pool_consistent (spawnAttacker w).
Proof.
  unfold pool_consistent. intros Hc.
  destruct (spawnAttacker_eq w) as (_ & _ & _ & _ & _ & Hs).
  destruct (Setup _ _); destruct Hs as [-> ->];
    autorewrite with trace_db; rewrite Hc;
    destruct (Verbose (config w)); cbn; by rewrite ?app_nil_r.
Qed.

Lemma iter_spawnAttacker_consistent (n : nat) (w : world) :
  pool_consistent w -> pool_consistent (Nat.iter n spawnAttacker w).
Proof.
  intros Hc. induction n as [|n IH]; [done|].
  cbn. by apply spawnAttacker_consistent.
Qed.

Lemma foldl_emit_quit (l : list Attack) (w : world) :
  let w' := foldl (fun w _ => emit EvQuit w) w l in
  trace w' = trace w ++ replicate (length l) EvQuit /\
  attackers w' = attackers w /\ config w' = config w.
Proof.
  revert w. induction l as [|a l IH]; intros w; cbn.
  - by rewrite app_nil_r.
  - destruct (IH (emit EvQuit w)) as (Ht & Ha & Hc).
    rewrite Ht, Ha, Hc. cbn. by rewrite <- app_assoc.
Qed.

Lemma quitAttackers_eq (w : world) :
  trace (quitAttackers w) =
    trace w ++ (if Verbose (config w) then [EvLog (LogStopping (len w))] else [])
            ++ replicate (length (attackers w)) EvQuit /\
  attackers (quitAttackers w) = attackers w /\
  config (quitAttackers w) = config w.
Proof.
  unfold quitAttackers.
  destruct (foldl_emit_quit (attackers (logVerbose (LogStopping (len w)) w))
              (logVerbose (LogStopping (len w)) w)) as (Ht & Ha & Hc).
  rewrite Ht, Ha, Hc, !logVerbose_attackers, logVerbose_config, logVerbose_trace.
  by rewrite <- app_assoc.
Qed.

Lemma quits_replicate (n : nat) : quits (replicate n EvQuit) = n.
Proof. unfold quits. induction n; cbn; [done | by f_equal]. Qed.

Lemma goroutines_replicate_quit (n : nat) : goroutines (replicate n EvQuit) = [].
Proof. induction n; cbn; done. Qed.

(** C5: from a pool in which every registered attacker has its goroutine,
    and after any further calls of [spawnAttacker], [quitAttackers] sends
    exactly [len(r.attackers)] quit signals and nothing else on a channel;
    this is the number of goroutines ever started, which are the
    registered attackers. *)
Theorem quitAttackers_one_signal_per_unit (w : world) (n : nat) :
  pool_consistent w ->
  let w1 := Nat.iter n spawnAttacker w in
  let w2 := quitAttackers w1 in
  (exists logs, Forall (fun e => is_log e = true) logs /\
     trace w2 = trace w1 ++ logs ++ replicate (length (attackers w1)) EvQuit) /\
  quits (trace w2) = (quits (trace w1) + length (attackers w1))%nat /\
  goroutines (trace w2) = attackers w1 /\
  (quits (trace w2) - quits (trace w1))%nat = length (goroutines (trace w2)).
Proof.
  intros Hc w1 w2.
  pose proof (iter_spawnAttacker_consistent n w Hc) as Hc1. fold w1 in Hc1.
  destruct (quitAttackers_eq w1) as (Ht & _ & _). fold w2 in Ht.
  assert (goroutines (trace w2) = attackers w1) as Hg.
  { rewrite Ht. autorewrite with trace_db.
    rewrite goroutines_replicate_quit, Hc1.
    destruct (Verbose (config w1)); cbn; by rewrite ?app_nil_r. }
  assert (quits (trace w2) = (quits (trace w1) + length (attackers w1))%nat) as Hq.
  { rewrite Ht. autorewrite with trace_db. rewrite quits_replicate.
    destruct (Verbose (config w1)); cbn; lia. }
  split; [|split; [done | split; [done |]]].
  - eexists. split; [|exact Ht].
    destruct (Verbose (config w1)); repeat constructor.
  - rewrite Hq, Hg. lia.
Qed.

Lemma foldl_teardown (l : list Attack) (w : world) :
  let w' := foldl (fun w each =>
              match Teardown each with
              | Some err => log (LogTeardownFailed err) (emit (EvTeardown each (Some err)) w)
              | None => emit (EvTeardown each None) w
              end) w l in
  teardowns (trace w') = teardowns (trace w) ++ map (fun a => (a, Teardown a)) l /\
  goroutines (trace w') = goroutines (trace w) /\
  quits (trace w') = quits (trace w) /\
  attackers w' = attackers w.
Proof.
  revert w. induction l as [|a l IH]; intros w; cbn.
  - by rewrite app_nil_r.
  - destruct (Teardown a) as [err|] eqn:Hd.
    + destruct (IH (log (LogTeardownFailed err) (emit (EvTeardown a (Some err)) w)))
        as (Ht & Hg & Hq & Ha).
      rewrite Ht, Hg, Hq, Ha. unfold_ops. cbn [trace attackers].
      autorewrite with trace_db. cbn.
      rewrite <- ?app_assoc, ?app_nil_r. cbn. repeat split; try done; lia.
    + destruct (IH (emit (EvTeardown a None) w)) as (Ht & Hg & Hq & Ha).
      rewrite Ht, Hg, Hq, Ha. unfold_ops. cbn [trace attackers].
      autorewrite with trace_db. cbn.
      rewrite <- ?app_assoc, ?app_nil_r. cbn. repeat split; try done; lia.
Qed.

Lemma tearDownAttackers_eq (w : world) :
  teardowns (trace (tearDownAttackers w)) =
    teardowns (trace w) ++ map (fun a => (a, Teardown a)) (attackers w) /\
  goroutines (trace (tearDownAttackers w)) = goroutines (trace w) /\
  quits (trace (tearDownAttackers w)) = quits (trace w) /\
  attackers (tearDownAttackers w) = attackers w.
Proof.
  unfold tearDownAttackers.
  match goal with |- context [foldl ?f ?w0 ?l] =>
    destruct (foldl_teardown l w0) as (Ht & Hg & Hq & Ha) end.
  cbn zeta in Ht, Hg, Hq, Ha. rewrite Ht, Hg, Hq, Ha.
  rewrite !logVerbose_attackers, logVerbose_trace. autorewrite with trace_db.
  destruct (Verbose _); cbn; rewrite ?app_nil_r; repeat split; lia.
Qed.

(** C9: [tearDownAttackers] calls Teardown once on every registered
    attacker, in the order of registration, whatever the calls return;
    the list of attackers is left as it was and the call returns (the
    function is total). *)
Theorem tearDownAttackers_visits_all (w : world) :
  let w' := tearDownAttackers w in
  teardowns (trace w') =
    teardowns (trace w) ++ map (fun a => (a, Teardown a)) (attackers w) /\
  map fst (drop (length (teardowns (trace w))) (teardowns (trace w'))) = attackers w /\
  attackers w' = attackers w.
Proof.
  cbn zeta. destruct (tearDownAttackers_eq w) as (Ht & _ & _ & Ha).
  rewrite Ht, Ha. split; [done | split; [|done]].
  rewrite drop_app_length, map_map. cbn. apply map_id.
Qed.

End PoolClaims.

Section DispatchFacts.

Context {M : Type} {MO : MetricsOps M} {AI : AttackImpl}.
Context {K : Type} `{Countable K}.

Abbreviation world := (@world M K _ _).

Lemma collectResults_frame (rs : list result) (w : world) :
  config (collectResults rs w) = config w /\
  attackers (collectResults rs w) = attackers w /\
  cloned (collectResults rs w) = cloned w /\
  resultsPipeline (collectResults rs w) = resultsPipeline w /\
  trace (collectResults rs w) = trace w.
Proof.
  unfold collectResults. destruct (resultsPipeline w) eqn:E; cbn; by rewrite ?E.
Qed.

Lemma dispatchLoop_frame (n : nat) (w : world) :
  config (dispatchLoop n w) = config w /\
  attackers (dispatchLoop n w) = attackers w /\
  cloned (dispatchLoop n w) = cloned w /\
  resultsPipeline (dispatchLoop n w) = resultsPipeline w /\
  metrics (dispatchLoop n w) = metrics w /\
  rampMetrics (dispatchLoop n w) = rampMetrics w /\
  goroutines (trace (dispatchLoop n w)) = goroutines (trace w) /\
  clones (trace (dispatchLoop n w)) = clones (trace w) /\
  dispatches (trace (dispatchLoop n w)) = (dispatches (trace w) + n)%nat.
Proof.
  revert w. induction n as [|n IH]; intros w; cbn [dispatchLoop].
  - repeat split; lia.
  - destruct (IH (emit EvNext (emit EvTake w)))
      as (-> & -> & -> & -> & -> & -> & -> & -> & ->).
    unfold_ops. cbn [trace config attackers cloned resultsPipeline metrics rampMetrics].
    autorewrite with trace_db. cbn. rewrite !app_nil_r.
    repeat split; lia.
Qed.

Lemma dispatch_frame (p : phase) (w : world) :
  config (dispatch p w) = config w /\
  attackers (dispatch p w) = attackers w /\
  cloned (dispatch p w) = cloned w /\
  resultsPipeline (dispatch p w) = resultsPipeline w /\
  goroutines (trace (dispatch p w)) = goroutines (trace w) /\
  clones (trace (dispatch p w)) = clones (trace w).
Proof.
  unfold dispatch.
  destruct (collectResults_frame (outcomes p) (dispatchLoop (ticks p) w))
    as (-> & -> & -> & -> & ->).
  destruct (dispatchLoop_frame (ticks p) w)
    as (-> & -> & -> & -> & _ & _ & -> & -> & _).
  done.
Qed.

(** What the collector does with the outcomes of a window depends on the
    pipeline in place, and on nothing else. *)
Lemma dispatch_store (p : phase) (w : world) :
  (metrics (dispatch p w), rampMetrics (dispatch p w)) =
    match resultsPipeline w with
    | Some f => foldl (fun st s => f s st) (metrics w, rampMetrics w) (outcomes p)
    | None => (metrics w, rampMetrics w)
    end.
Proof.
  unfold dispatch, collectResults.
  destruct (dispatchLoop_frame (ticks p) w)
    as (_ & _ & _ & Hp & Hm & Hr & _).
  rewrite Hp. destruct (resultsPipeline w); cbn; rewrite Hm, Hr; [|done].
  by destruct (foldl _ _ _).
Qed.

(** The outcomes of the full attack go where the pipeline in place at its
    start sends them. *)
Lemma fullAttack_store (p : phase) (w : world) :
  (metrics (fullAttack p w), rampMetrics (fullAttack p w)) =
    match resultsPipeline w with
    | Some f => foldl (fun st s => f s st) (metrics w, rampMetrics w) (outcomes p)
    | None => (metrics w, rampMetrics w)
    end.
Proof.
  unfold fullAttack.
  destruct (logVerbose_store (LogBeginFullAttack
             (AttackTimeSec (config w) - RampupTimeSec (config w))) w) as (Hm & Hr & Hp).
  set (w0 := logVerbose _ w) in *.
  set (w1 := emit (EvLimiter (RPS (config w0))) w0).
  pose proof (dispatch_store p w1) as Hst.
  change (resultsPipeline w1) with (resultsPipeline w0) in Hst.
  change (metrics w1) with (metrics w0) in Hst.
  change (rampMetrics w1) with (rampMetrics w0) in Hst.
  rewrite Hm, Hr, Hp in Hst. rewrite <- Hst.
  by destruct (logVerbose_store LogEndFullAttack (dispatch p w1)) as (-> & -> & _).
Qed.

Lemma spawnAttacker_len (w : world) :
  len w <= len (spawnAttacker w) <= len w + 1.
Proof.
  destruct (spawnAttacker_eq w) as (_ & _ & _ & _ & _ & Hs).
  unfold len. destruct (Setup _ _); destruct Hs as [-> _];
    rewrite ?length_app; cbn; lia.
Qed.

End DispatchFacts.

Section GoIntFacts.

Lemma wrap_in_range (z : Z) : GoInt.in_range z -> GoInt.wrap z = z.
Proof.
  unfold GoInt.in_range, GoInt.wrap, GoInt.min_int, GoInt.max_int. intros Hz.
  rewrite Z.mod_small; lia.
Qed.

Lemma wrap_range (z : Z) : GoInt.in_range (GoInt.wrap z).
Proof.
  unfold GoInt.in_range, GoInt.wrap, GoInt.min_int, GoInt.max_int.
  pose proof (Z.mod_pos_bound (z + 2 ^ 63) (2 ^ 64) ltac:(lia)). lia.
Qed.

End GoIntFacts.

Section StepRate.

(** The rate of a ramp-up second is never zero. *)
Lemma stepRate_nonzero (c : Config) (i : Z) : Runner1.stepRate c i <> 0.
Proof.
  unfold Runner1.stepRate.
  destruct (Z.eqb_spec (GoInt.div (GoInt.mul i (RPS c)) (RampupTimeSec c)) 0); lia.
Qed.

(** C2, as the code has it: the rate of second [i] is never zero, whatever
    the configuration and the second; and it is [max(1, i*R/N)] for [i] in
    [1..N] and [R > 0] as long as the product [i*R] fits Go's [int]. *)
Theorem stepRate_linear (c : Config) (i : Z) :
  Runner1.stepRate c i <> 0 /\
  (1 <= i <= RampupTimeSec c ->
   0 < RPS c ->
   i * RPS c <= GoInt.max_int ->
   Runner1.stepRate c i = Z.max 1 (i * RPS c / RampupTimeSec c)).
Proof.
  split; [apply stepRate_nonzero|]. intros Hi Hr Hfit.
  unfold Runner1.stepRate, GoInt.div, GoInt.mul.
  assert (0 <= i * RPS c) as Hnn by nia.
  rewrite (wrap_in_range (i * RPS c))
    by (unfold GoInt.in_range, GoInt.min_int, GoInt.max_int in *; lia).
  rewrite Z.quot_div_nonneg by lia.
  assert (0 <= i * RPS c / RampupTimeSec c <= i * RPS c) as Hq.
  { split; [apply Z.div_pos; lia | apply Z.div_le_upper_bound; nia]. }
  rewrite wrap_in_range
    by (unfold GoInt.in_range, GoInt.min_int, GoInt.max_int in *; lia).
  destruct (Z.eqb_spec (i * RPS c / RampupTimeSec c) 0); lia.
Qed.

Lemma stepRate_linear_witness :
  Runner1.stepRate Stub.quiet 2 = Z.max 1 (2 * 10 / 5) /\
  Runner1.stepRate Stub.quiet 2 <> 0.
Proof.
  destruct (stepRate_linear Stub.quiet 2) as [Hnz Heq].
  split; [apply Heq; cbn; unfold GoInt.max_int; lia | exact Hnz].
Defined.

(** C2 as stated fails where [i*R] overflows: with R = 2^62 and N = 4 the
    rate of second 2 is negative. *)
Lemma stepRate_overflow :
  let c := mkConfig (2 ^ 62) 20 4 10 "" false in
  1 <= 2 <= RampupTimeSec c /\ 0 < RPS c /\
  Runner1.stepRate c 2 = - 2 ^ 61 /\
  Runner1.stepRate c 2 <> Z.max 1 (2 * RPS c / RampupTimeSec c).
Proof. cbn zeta. vm_compute. repeat split; intros; discriminate. Qed.

End StepRate.

Section LinearRampUp.

Context {M : Type} {MO : MetricsOps M} {AI : AttackImpl}.

Abbreviation world := (@world M Z _ _).

Lemma spawnAttacker_calls (w : world) :
  spawnCalls (spawnAttacker w) = S (spawnCalls w).
Proof.
  unfold spawnCalls.
  destruct (spawnAttacker_eq w) as (_ & _ & _ & _ & _ & Hs).
  destruct (Setup _ _); destruct Hs as [_ ->];
    autorewrite with trace_db; rewrite !length_app;
    destruct (Verbose (config w)); cbn; lia.
Qed.

(** The spawn loop from index [s] for [n] rounds: [spawnAttacker] is
    called for the indices below [MaxAttackers], and for no other. *)
Lemma forRounds_spawnRound (n : nat) (s : Z) (w : world) :
  let w' := forRounds n s Runner1.spawnRound w in
  let k := Z.to_nat (Z.min (s + Z.of_nat n) (MaxAttackers (config w)) - s) in
  config w' = config w /\
  metrics w' = metrics w /\
  rampMetrics w' = rampMetrics w /\
  resultsPipeline w' = resultsPipeline w /\
  spawnCalls w' = (spawnCalls w + k)%nat /\
  len w <= len w' <= len w + Z.of_nat k.
Proof.
  revert s w. induction n as [|n IH]; intros s w; cbn zeta.
  - cbn [forRounds]. repeat split; lia.
  - cbn [forRounds].
    destruct (Runner1.spawnRound s w) as [continue w1] eqn:Hsr.
    unfold Runner1.spawnRound in Hsr.
    destruct (Z.ltb_spec s (MaxAttackers (config w))) as [Hlt|Hge];
      [|destruct (Verbose (config w)) eqn:Hv]; injection Hsr as <- <-.
    + destruct (spawnAttacker_eq w) as (Hc & _ & Hm & Hr & Hp & _).
      pose proof (spawnAttacker_len w) as Hl.
      pose proof (spawnAttacker_calls w) as Hk.
      destruct (IH (s + 1) (spawnAttacker w)) as (-> & -> & -> & -> & -> & Hl').
      rewrite Hc in *. repeat split; try done; lia.
    + unfold spawnCalls, len, log, emit. cbn [trace config metrics rampMetrics
                                                resultsPipeline attackers].
      autorewrite with trace_db. rewrite length_app.
      change (length (clones [EvLog (LogReachedMax (MaxAttackers (config w)))])) with O.
      repeat split; try done; lia.
    + destruct (IH (s + 1) w) as (-> & -> & -> & -> & -> & Hl').
      repeat split; try done; lia.
Qed.

(** Lines 149-167, by the outcome of the two tests. *)
Lemma growPool_eq (rate : float) (rps : Z) (w : world) :
  let w' := Runner1.growPool rate rps w in
  let wanted := Runner1.wantedAttackers rate rps (len w) in
  let k := if Runner1.belowTarget rate rps && Runner1.belowThreshold rate rps
           then Z.to_nat (Z.min wanted (MaxAttackers (config w)) - len w)
           else O in
  config w' = config w /\
  metrics w' = metrics w /\
  rampMetrics w' = rampMetrics w /\
  resultsPipeline w' = resultsPipeline w /\
  spawnCalls w' = (spawnCalls w + k)%nat /\
  len w <= len w' <= len w + Z.of_nat k.
Proof.
  cbn zeta. unfold Runner1.growPool.
  destruct (Runner1.belowTarget rate rps); cbn [andb]; [|repeat split; lia].
  destruct (Runner1.belowThreshold rate rps).
  - unfold forRange.
    set (w0 := logVerbose (LogBelowTarget rate rps) w).
    assert (len w0 = len w) as Hl by (unfold len, w0; by rewrite logVerbose_attackers).
    assert (config w0 = config w) as Hc by apply logVerbose_config.
    assert (spawnCalls w0 = spawnCalls w) as Hk.
    { unfold spawnCalls, w0. rewrite logVerbose_trace. autorewrite with trace_db.
      destruct (Verbose _); cbn; rewrite length_app; cbn; lia. }
    destruct (logVerbose_store (LogBelowTarget rate rps) w) as (Hm & Hr & Hp).
    fold w0 in Hm, Hr, Hp.
    destruct (forRounds_spawnRound
                (Z.to_nat (Runner1.wantedAttackers rate rps (len w0) - len w0))
                (len w0) w0) as (-> & -> & -> & -> & -> & Hl').
    rewrite Hl, Hc, Hk in *. repeat split; try done; lia.
  - assert (spawnCalls (logVerbose (LogBelowTarget rate rps) w) = spawnCalls w) as ->.
    { unfold spawnCalls. rewrite logVerbose_trace. autorewrite with trace_db.
      destruct (Verbose _); cbn; rewrite length_app; cbn; lia. }
    unfold len. rewrite logVerbose_attackers, logVerbose_config.
    destruct (logVerbose_store (LogBelowTarget rate rps) w) as (-> & -> & ->).
    repeat split; lia.
Qed.

End LinearRampUp.

Section LinearRampUpSteps.

Context {M : Type} {MO : MetricsOps M} {AI : AttackImpl}.

Abbreviation world := (@world M Z _ _).

Lemma foldl_rampPipe (rs : list result) (ms : gmap Z M) (r : option M) :
  foldl (fun st s => Runner1.rampPipe s st) (ms, r) rs =
    (ms, (fun m => foldl add m rs) <$> r).
Proof.
  revert r. induction rs as [|s rs IH]; intros r; cbn.
  - by destruct r.
  - unfold Runner1.rampPipe at 2. cbn. rewrite IH. by destruct r.
Qed.

Lemma foldl_addResultPipe (rs : list result) (ms : gmap Z M) (r : option M) :
  foldl (fun st s => Runner1.addResultPipe s st) (ms, r) rs =
    (foldl (fun m s => Runner1.addResult s m) ms rs, r).
Proof.
  revert ms. induction rs as [|s rs IH]; intros ms; cbn; [done|].
  unfold Runner1.addResultPipe at 2. cbn. by rewrite IH.
Qed.

(** One ramp-up second: the outcomes of the window go to the record of
    the step and leave the metrics map alone; the pool grows by what
    [growPool] decides on the measured rate. *)
Lemma rampStep_eq (e : Env) (w : world) (i : Z) :
  let w' := Runner1.rampStep e w i in
  let m := updateLatencies (foldl add new_Metrics (outcomes (rampObs e i))) in
  let rps := Runner1.stepRate (config w) i in
  let k := if Runner1.belowTarget (Rate m) rps && Runner1.belowThreshold (Rate m) rps
           then Z.to_nat (Z.min (Runner1.wantedAttackers (Rate m) rps (len w))
                                (MaxAttackers (config w)) - len w)
           else O in
  config w' = config w /\
  metrics w' = metrics w /\
  rampMetrics w' = Some m /\
  resultsPipeline w' = Some Runner1.rampPipe /\
  spawnCalls w' = (spawnCalls w + k)%nat /\
  len w <= len w' <= len w + Z.of_nat k.
Proof.
  cbn zeta. unfold Runner1.rampStep.
  change (config (set_resultsPipeline (Some Runner1.rampPipe)
                    (set_rampMetrics (Some new_Metrics) w))) with (config w).
  set (w2 := emit (EvLimiter _) (set_resultsPipeline _ (set_rampMetrics _ w))).
  destruct (dispatch_frame (rampObs e i) w2) as (Hc & Ha & _ & Hp & _ & Hcl).
  pose proof (dispatch_store (rampObs e i) w2) as Hst.
  cbn [w2 emit set_resultsPipeline set_rampMetrics resultsPipeline metrics
       rampMetrics] in Hst.
  rewrite foldl_rampPipe in Hst. cbn in Hst. injection Hst as Hm Hr.
  set (w3 := dispatch (rampObs e i) w2) in *.
  set (w5 := set_rampMetrics _ (emit EvTake w3)).
  assert (rampMetrics w5 = Some (updateLatencies
            (foldl add new_Metrics (outcomes (rampObs e i))))) as Hr5.
  { unfold w5. cbn. by rewrite Hr. }
  assert (Runner1.measuredRate w5 = Rate (updateLatencies
            (foldl add new_Metrics (outcomes (rampObs e i))))) as ->.
  { unfold Runner1.measuredRate. by rewrite Hr5. }
  assert (config w5 = config w) as Hc5 by (unfold w5; cbn; by rewrite Hc).
  assert (len w5 = len w) as Hl5 by (unfold len, w5; cbn; by rewrite Ha).
  assert (spawnCalls w5 = spawnCalls w) as Hk5.
  { unfold spawnCalls, w5. cbn. autorewrite with trace_db. cbn.
    rewrite Hcl. unfold w2. cbn. autorewrite with trace_db. cbn.
    by rewrite !app_nil_r. }
  destruct (growPool_eq (Rate (updateLatencies
            (foldl add new_Metrics (outcomes (rampObs e i)))))
            (Runner1.stepRate (config w) i) w5) as (Hc' & Hm' & Hr' & Hp' & Hk' & Hl').
  rewrite Hc5, Hl5, Hk5 in *.
  repeat split; try done.
  - rewrite Hm'. unfold w5. cbn. by rewrite Hm.
  - by rewrite Hr'.
  - rewrite Hp'. unfold w5. cbn. by rewrite Hp.
  - lia.
  - lia.
Qed.

End LinearRampUpSteps.

Section LinearRampUpClaims.

Context {M : Type} {MO : MetricsOps M} {AI : AttackImpl}.

Abbreviation world := (@world M Z _ _).

Lemma foldl_rampStep (e : Env) (l : list Z) (w : world) :
  len w <= MaxAttackers (config w) ->
  let w' := foldl (Runner1.rampStep e) w l in
  config w' = config w /\
  metrics w' = metrics w /\
  len w <= len w' <= MaxAttackers (config w).
Proof.
  revert w. induction l as [|i l IH]; intros w Hw; cbn zeta; cbn [foldl].
  - repeat split; lia.
  - destruct (rampStep_eq e w i) as (Hc & Hm & _ & _ & _ & Hl). cbn zeta in Hl.
    assert (len (Runner1.rampStep e w i) <= MaxAttackers (config w)) as Hb.
    { destruct (_ && _); lia. }
    destruct (IH (Runner1.rampStep e w i)) as (-> & -> & Hl'); [by rewrite Hc|].
    rewrite Hc in *. repeat split; try done; lia.
Qed.

Lemma rampSteps_eq (e : Env) (n : nat) (w : world) :
  1 <= MaxAttackers (config w) ->
  attackers w = [] ->
  let w' := Runner1.rampSteps e n w in
  config w' = config w /\
  metrics w' = metrics w /\
  len w' <= MaxAttackers (config w).
Proof.
  intros Hmax Hnil. cbn zeta. unfold Runner1.rampSteps.
  set (w0 := logVerbose _ w).
  assert (config w0 = config w) as Hc0 by apply logVerbose_config.
  assert (len w0 = 0) as Hl0
    by (unfold len, w0; by rewrite logVerbose_attackers, Hnil).
  destruct (logVerbose_store (LogBeginRampup (RampupTimeSec (config w))) w)
    as (Hm0 & _ & _). fold w0 in Hm0.
  destruct (spawnAttacker_eq w0) as (Hc1 & _ & Hm1 & _).
  pose proof (spawnAttacker_len w0) as Hl1.
  set (w2 := set_rampMetrics None (spawnAttacker w0)).
  assert (config w2 = config w) as Hc2 by (by rewrite <- Hc0, <- Hc1).
  assert (metrics w2 = metrics w) as Hm2 by (by rewrite <- Hm0, <- Hm1).
  assert (len w2 = len (spawnAttacker w0)) as Hl2 by done.
  destruct (foldl_rampStep e (Runner1.seconds n) w2) as (-> & -> & Hl3).
  - rewrite Hc2. lia.
  - rewrite Hc2 in *. repeat split; try done; lia.
Qed.

Lemma rampUp_world (e : Env) (w : world) :
  let w1 := Runner1.rampSteps e (Z.to_nat (RampupTimeSec (config w))) w in
  let w' := world_of (Runner1.rampUp e w) in
  resultsPipeline w' = Some Runner1.addResultPipe /\
  attackers w' = attackers w1 /\
  metrics w' = metrics w1 /\
  config w' = config w1.
Proof.
  cbn zeta. unfold Runner1.rampUp.
  set (w1 := Runner1.rampSteps e _ w).
  cbn [config set_resultsPipeline rampMetrics].
  destruct (Verbose (config w1)); [destruct (rampMetrics w1)|]; cbn; done.
Qed.

(** When every Setup succeeds the spawn loop registers what it spawns. *)
Lemma forRounds_spawnRound_all_ok (n : nat) (s : Z) (w : world) :
  (forall a, Setup a (config w) = None) ->
  let k := Z.to_nat (Z.min (s + Z.of_nat n) (MaxAttackers (config w)) - s) in
  len (forRounds n s Runner1.spawnRound w) = len w + Z.of_nat k.
Proof.
  revert s w. induction n as [|n IH]; intros s w Hok; cbn zeta.
  - cbn [forRounds]. lia.
  - cbn [forRounds].
    destruct (Runner1.spawnRound s w) as [continue w1] eqn:Hsr.
    unfold Runner1.spawnRound in Hsr.
    destruct (Z.ltb_spec s (MaxAttackers (config w))) as [Hlt|Hge];
      [|destruct (Verbose (config w)) eqn:Hv]; injection Hsr as <- <-.
    + destruct (spawnAttacker_eq w) as (Hc & _ & _ & _ & _ & Hs).
      rewrite Hok in Hs. destruct Hs as [Ha _].
      assert (len (spawnAttacker w) = len w + 1) as Hl
        by (unfold len; rewrite Ha, length_app; cbn; lia).
      rewrite (IH (s + 1) (spawnAttacker w)) by (by rewrite Hc).
      rewrite Hc, Hl. lia.
    + unfold len, log, emit. cbn [attackers]. lia.
    + rewrite (IH (s + 1) w Hok). lia.
Qed.

(** With every Setup succeeding, a second that passes both tests leaves
    the pool at the wanted size, or at [MaxAttackers] if that is less, and
    never below its size before. *)
Lemma growPool_reaches_wanted (rate : float) (rps : Z) (w : world) :
  (forall a, Setup a (config w) = None) ->
  Runner1.belowTarget rate rps = true ->
  Runner1.belowThreshold rate rps = true ->
  len (Runner1.growPool rate rps w) =
    Z.max (len w) (Z.min (Runner1.wantedAttackers rate rps (len w))
                         (MaxAttackers (config w))).
Proof.
  intros Hok Ht Hr. unfold Runner1.growPool, forRange. rewrite Ht, Hr.
  set (w0 := logVerbose (LogBelowTarget rate rps) w).
  assert (len w0 = len w) as Hl by (unfold len, w0; by rewrite logVerbose_attackers).
  assert (config w0 = config w) as Hc by apply logVerbose_config.
  rewrite forRounds_spawnRound_all_ok by (by rewrite Hc).
  rewrite Hl, Hc. lia.
Qed.

(** C1: with [MaxAttackers >= 1] and an empty pool before the bootstrap
    spawn, the pool never holds more than [MaxAttackers] attackers: not
    after any number of ramp-up seconds, and not when [rampUp] is over,
    whatever rates the seconds measure and whatever Setup returns. *)
Theorem rampUp_pool_within_MaxAttackers (e : Env) (w : world) :
  1 <= MaxAttackers (config w) ->
  attackers w = [] ->
  (forall n : nat, len (Runner1.rampSteps e n w) <= MaxAttackers (config w)) /\
  len (world_of (Runner1.rampUp e w)) <= MaxAttackers (config w).
Proof.
  intros Hmax Hnil. split.
  - intros n. by destruct (rampSteps_eq e n w Hmax Hnil) as (_ & _ & Hl).
  - destruct (rampUp_world e w) as (_ & Ha & _). unfold len. rewrite Ha.
    by destruct (rampSteps_eq e (Z.to_nat (RampupTimeSec (config w))) w Hmax Hnil)
      as (_ & _ & Hl).
Qed.

(** C3, as the code has it: after a second with rate [rps] has measured
    [rate], [spawnAttacker] is called only if [0 < rate < rps] and
    [rate/rps < 0.9]; then the wanted size is
    [int(Trunc(rps/rate)) * len(attackers)] and [spawnAttacker] is called
    once for every index from the current size up to the wanted size that
    is below [MaxAttackers]: not at all when the wanted size is the
    current size, as for every rate above half of [rps]. *)
Theorem growPool_spawns_up_to_wanted (rate : float) (rps : Z) (w : world) :
  let w' := Runner1.growPool rate rps w in
  let below := Runner1.belowTarget rate rps && Runner1.belowThreshold rate rps in
  let wanted := Runner1.wantedAttackers rate rps (len w) in
  spawnCalls w' =
    (spawnCalls w +
     (if below then Z.to_nat (Z.min wanted (MaxAttackers (config w)) - len w) else O))%nat /\
  ((spawnCalls w < spawnCalls w')%nat <->
     below = true /\ len w < wanted /\ len w < MaxAttackers (config w)) /\
  len w <= len w' /\
  len w' - len w <= Z.of_nat (spawnCalls w') - Z.of_nat (spawnCalls w).
Proof.
  cbn zeta.
  destruct (growPool_eq rate rps w) as (_ & _ & _ & _ & Hk & Hl). cbn zeta in Hk, Hl.
  rewrite Hk. destruct (_ && _); repeat split; try lia; intros; try lia.
Qed.

End LinearRampUpClaims.

Section StrategyRampUp.

Context {M : Type} {MO : MetricsOps M} {AI : AttackImpl}.

Abbreviation world1 := (@world M Z _ _).
Abbreviation world := (@world M string _ _).

Variable Validate : Config -> list string.
Variable rampupStrategy : Config -> string.
Variable linearStrategy : world -> world.
Variable spawnAsWeNeedStrategy : world -> world.

Abbreviation rampUp := (Runner2.rampUp rampupStrategy linearStrategy spawnAsWeNeedStrategy).
Abbreviation run := (Runner2.run rampupStrategy linearStrategy spawnAsWeNeedStrategy).
Abbreviation Run :=
  (Runner2.Run Validate rampupStrategy linearStrategy spawnAsWeNeedStrategy).

Lemma foldl_addResultPipe2 (rs : list result) (ms : gmap string M) (r : option M) :
  foldl (fun st s => Runner2.addResultPipe s st) (ms, r) rs =
    (foldl (fun m s => Runner2.addResult s m) ms rs, r).
Proof.
  revert ms. induction rs as [|s rs IH]; intros ms; cbn; [done|].
  unfold Runner2.addResultPipe at 2. cbn. by rewrite IH.
Qed.

Lemma rampUp_pipeline (w : world) :
  resultsPipeline (rampUp w) = Some Runner2.addResultPipe.
Proof.
  unfold Runner2.rampUp.
  match goal with |- resultsPipeline (logVerbose ?m ?w0) = _ =>
    by destruct (logVerbose_store m w0) as (_ & _ & ->) end.
Qed.

(** C4: when [rampUp] is over the pipeline is [addResult], whichever
    strategy ran or none, in the later revision as in the earlier one
    (also when its last log line panics); so the outcomes the collector
    takes during the full attack are folded into the metrics map by
    [addResult] and leave the record of the ramp-up alone, and the
    outcomes it takes during a ramp-up second are folded into the record
    of that second and leave the metrics map alone. *)
Theorem rampUp_restores_addResult (w : world) (p : phase)
        (e : Env) (w1 : world1) (i : Z) :
  let w' := rampUp w in
  let w1' := world_of (Runner1.rampUp e w1) in
  resultsPipeline w' = Some Runner2.addResultPipe /\
  metrics (fullAttack p w') =
    foldl (fun m s => Runner2.addResult s m) (metrics w') (outcomes p) /\
  rampMetrics (fullAttack p w') = rampMetrics w' /\
  resultsPipeline w1' = Some Runner1.addResultPipe /\
  metrics (fullAttack p w1') =
    foldl (fun m s => Runner1.addResult s m) (metrics w1') (outcomes p) /\
  rampMetrics (fullAttack p w1') = rampMetrics w1' /\
  metrics (Runner1.rampStep e w1 i) = metrics w1 /\
  rampMetrics (Runner1.rampStep e w1 i) =
    Some (updateLatencies (foldl add new_Metrics (outcomes (rampObs e i)))).
Proof.
  cbn zeta.
  pose proof (rampUp_pipeline w) as Hp.
  pose proof (fullAttack_store p (rampUp w)) as Hs.
  rewrite Hp, foldl_addResultPipe2 in Hs. injection Hs as Hm Hr.
  destruct (rampUp_world e w1) as (Hp1 & _). cbn zeta in Hp1.
  pose proof (fullAttack_store p (world_of (Runner1.rampUp e w1))) as Hs1.
  rewrite Hp1, foldl_addResultPipe in Hs1. injection Hs1 as Hm1 Hr1.
  destruct (rampStep_eq e w1 i) as (_ & Hm2 & Hr2 & _).
  repeat split; done.
Qed.

Lemma testCalls_eq (n k : nat) (probe : Attack) (w : world) :
  let w' := Runner2.testCalls n k probe w in
  trace w' = trace w ++ sampleCalls probe k n /\
  attackers w' = attackers w /\
  config w' = config w.
Proof.
  revert k w. induction n as [|n IH]; intros k w; cbn zeta; cbn [Runner2.testCalls].
  - unfold sampleCalls. cbn. by rewrite app_nil_r.
  - destruct (IH (S k) (log (LogTestCall (Do probe (S k))) (emit (EvDo probe) w)))
      as (-> & -> & ->).
    unfold sampleCalls. cbn. by rewrite <- !app_assoc.
Qed.

Lemma sampleCalls_calls (probe : Attack) (j k : nat) :
  calls (sampleCalls probe j k) = replicate k probe /\
  clones (sampleCalls probe j k) = [] /\
  teardowns (sampleCalls probe j k) = [] /\
  Forall (fun e => is_pipeline_event e = false) (sampleCalls probe j k).
Proof.
  revert j. unfold sampleCalls.
  induction k as [|k IH]; intros j; [done|].
  cbn [seq flat_map]. rewrite calls_app, clones_app, teardowns_app, Forall_app.
  destruct (IH (S j)) as (-> & -> & -> & Hf). repeat split; try done.
  by repeat constructor.
Qed.

(** The sample mode: what [test] leaves in the trace, by the result of
    Setup on the probe. *)
Lemma test_eq (count : Z) (w : world) :
  let probe := S (cloned w) in
  attackers (Runner2.test count w) = attackers w /\
  trace (Runner2.test count w) =
    trace w ++ [EvClone probe] ++
    match Setup probe (config w) with
    | Some err => [EvSetup probe (Some err); EvLog (LogTestSetupFailed err)]
    | None => [EvSetup probe None] ++ sampleCalls probe O (Z.to_nat count)
                ++ [EvTeardown probe (Teardown probe)]
    end.
Proof.
  cbn zeta. unfold Runner2.test, Clone.
  cbn [config emit].
  destruct (Setup (S (cloned w)) (config w)) as [err|].
  - unfold log, emit. cbn. by rewrite <- !app_assoc.
  - match goal with |- context [Runner2.testCalls ?n ?k ?a ?w0] =>
      destruct (testCalls_eq n k a w0) as (Ht & Ha & _) end.
    cbn zeta in Ht, Ha.
    set (wt := Runner2.testCalls _ _ _ _) in *. cbn [emit attackers trace].
    rewrite Ht, Ha. cbn. by rewrite <- !app_assoc.
Qed.

(** C7: with a positive sample count [N] and a probe whose Setup
    succeeds, [Run] clones the prototype once, sets the probe up, calls
    [Do] on it exactly [N] times, tears it down and exits: no report
    comes back, and nothing of a full run happens (no validation, no
    goroutine, no dispatch, no quit, no output). *)
Theorem Run_sample_mode (N : Z) (e : Env) (c : Config) :
  0 < N ->
  Setup 1%nat c = None ->
  let '(report, w) := Run N e c in
  report = None /\
  trace w = (if Verbose c then [EvLog LogBanner] else [])
              ++ [EvClone 1%nat; EvSetup 1%nat None]
              ++ sampleCalls 1%nat O (Z.to_nat N)
              ++ [EvTeardown 1%nat (Teardown 1%nat); EvExit 0] /\
  calls (trace w) = replicate (Z.to_nat N) 1%nat /\
  Z.of_nat (length (calls (trace w))) = N /\
  clones (trace w) = [1%nat] /\
  teardowns (trace w) = [(1%nat, Teardown 1%nat)] /\
  attackers w = [] /\
  Forall (fun ev => is_pipeline_event ev = false) (trace w).
Proof.
  intros HN Hsetup. unfold Runner2.Run.
  destruct (Z.ltb_spec 0 N) as [_|?]; [|lia].
  set (w0 := logVerbose LogBanner (Runner2.newRunner c)).
  assert (config w0 = c) as Hc by apply logVerbose_config.
  assert (cloned w0 = O) as Hn by apply logVerbose_cloned.
  assert (attackers w0 = []) as Ha by apply logVerbose_attackers.
  assert (trace w0 = if Verbose c then [EvLog LogBanner] else []) as Ht.
  { unfold w0. rewrite logVerbose_trace. by destruct (Verbose _). }
  destruct (test_eq N w0) as (Ha' & Ht'). cbn zeta in Ht'.
  rewrite Hn, Hc, Hsetup, Ht in Ht'.
  destruct (sampleCalls_calls 1%nat O (Z.to_nat N)) as (Hcalls & Hclones & Htd & Hfa).
  assert (trace (emit (EvExit 0) (Runner2.test N w0)) =
          (if Verbose c then [EvLog LogBanner] else [])
            ++ [EvClone 1%nat; EvSetup 1%nat None]
            ++ sampleCalls 1%nat O (Z.to_nat N)
            ++ [EvTeardown 1%nat (Teardown 1%nat); EvExit 0]) as Htr.
  { cbn [emit trace]. rewrite Ht'. cbn. rewrite <- !app_assoc. cbn.
    by rewrite <- !app_assoc. }
  split; [done|]. split; [exact Htr|]. rewrite Htr.
  autorewrite with trace_db. rewrite Hcalls, Hclones, Htd.
  repeat split.
  - destruct (Verbose c); cbn; by rewrite app_nil_r.
  - destruct (Verbose c); cbn; rewrite app_nil_r, length_replicate; lia.
  - by destruct (Verbose c).
  - by destruct (Verbose c).
  - cbn [emit attackers]. by rewrite Ha'.
  - rewrite !Forall_app. repeat split; try done.
    + destruct (Verbose c); by repeat constructor.
    + by repeat constructor.
    + by repeat constructor.
Qed.

(** When Setup fails on the probe the sample mode makes no call at all,
    tears nothing down, and exits all the same. *)
Lemma Run_sample_mode_setup_fails (N : Z) (e : Env) (c : Config) (err : error) :
  0 < N ->
  Setup 1%nat c = Some err ->
  let '(report, w) := Run N e c in
  report = None /\ calls (trace w) = [] /\ teardowns (trace w) = [].
Proof.
  intros HN Hsetup. unfold Runner2.Run.
  destruct (Z.ltb_spec 0 N) as [_|?]; [|lia].
  set (w0 := logVerbose LogBanner (Runner2.newRunner c)).
  assert (config w0 = c) as Hc by apply logVerbose_config.
  assert (cloned w0 = O) as Hn by apply logVerbose_cloned.
  assert (trace w0 = if Verbose c then [EvLog LogBanner] else []) as Ht.
  { unfold w0. rewrite logVerbose_trace. by destruct (Verbose _). }
  destruct (test_eq N w0) as (_ & Ht'). cbn zeta in Ht'.
  rewrite Hn, Hc, Hsetup, Ht in Ht'.
  cbn [emit trace]. rewrite Ht'. autorewrite with trace_db.
  by destruct (Verbose c).
Qed.

(** C10: with a strategy name that is neither "linear" nor "exp2",
    [rampUp] runs no strategy: the pool, the clone counter and the stores
    are as before and the trace gains log lines only, so no attacker is
    spawned and nothing is dispatched; the pipeline is [addResult]; and
    in a run the full attack starts right after, on the empty pool that
    [init] left. *)
Theorem rampUp_unknown_strategy (e : Env) (w : world) :
  rampupStrategy (config w) <> "linear" ->
  rampupStrategy (config w) <> "exp2" ->
  let w' := rampUp w in
  let w0 := emit EvGoCollect (Runner2.init w) in
  attackers w' = attackers w /\
  cloned w' = cloned w /\
  metrics w' = metrics w /\
  rampMetrics w' = rampMetrics w /\
  resultsPipeline w' = Some Runner2.addResultPipe /\
  (exists logs, Forall (fun ev => is_log ev = true) logs /\
                trace w' = trace w ++ logs) /\
  clones (trace w') = clones (trace w) /\
  goroutines (trace w') = goroutines (trace w) /\
  dispatches (trace w') = dispatches (trace w) /\
  attackers (rampUp w0) = [] /\
  run e (Runner2.init w) =
    Runner2.reportMetrics e
      (tearDownAttackers (quitAttackers (fullAttack (fullObs e) (rampUp w0)))).
Proof.
  intros Hl He.
  assert (forall v : world, config v = config w ->
            attackers (rampUp v) = attackers v /\
            cloned (rampUp v) = cloned v /\
            metrics (rampUp v) = metrics v /\
            rampMetrics (rampUp v) = rampMetrics v /\
            trace (rampUp v) =
              trace v ++ (if Verbose (config v)
                          then [EvLog (LogBeginRampup (RampupTimeSec (config v)));
                                EvLog (LogEndRampup (len v))]
                          else [])) as Hnoop.
  { intros v Hv. unfold Runner2.rampUp. rewrite Hv.
    apply String.eqb_neq in Hl, He. rewrite Hl, He.
    unfold logVerbose, log, emit, set_resultsPipeline, len.
    rewrite <- Hv. destruct (Verbose (config v)) eqn:Hverb; cbn; rewrite ?Hverb; cbn.
    - by rewrite <- app_assoc.
    - by rewrite app_nil_r. }
  cbn zeta. destruct (Hnoop w eq_refl) as (Ha & Hn & Hm & Hr & Ht).
  destruct (Hnoop (emit EvGoCollect (Runner2.init w)) eq_refl) as (Ha0 & _).
  rewrite Ha, Hn, Hm, Hr, Ht, Ha0. autorewrite with trace_db.
  repeat split; try done.
  - apply rampUp_pipeline.
  - eexists. split; [|reflexivity]. destruct (Verbose _); by repeat constructor.
  - destruct (Verbose _); cbn; by rewrite app_nil_r.
  - destruct (Verbose _); cbn; by rewrite app_nil_r.
  - destruct (Verbose _); cbn; lia.
Qed.

End StrategyRampUp.

Section Aggregation.

Variable window : float.

Abbreviation addResult := (Runner2.addResult (MO := SpecMetrics.ops window)).

Lemma same_summary_refl m : same_summary m m.
Proof. by intros k. Qed.

Lemma same_summary_trans m1 m2 m3 :
  same_summary m1 m2 -> same_summary m2 m3 -> same_summary m1 m3.
Proof. intros H12 H23 k. by rewrite H12. Qed.

Lemma add_summary (x y : SpecMetrics.t) (s : result) :
  SpecMetrics.summary x = SpecMetrics.summary y ->
  SpecMetrics.summary (SpecMetrics.add x s) = SpecMetrics.summary (SpecMetrics.add y s).
Proof.
  destruct x, y. unfold SpecMetrics.summary, SpecMetrics.add. cbn.
  intros [= -> -> ->]. done.
Qed.

Lemma add_add_summary (x : SpecMetrics.t) (a b : result) :
  SpecMetrics.summary (SpecMetrics.add (SpecMetrics.add x a) b) =
  SpecMetrics.summary (SpecMetrics.add (SpecMetrics.add x b) a).
Proof.
  destruct x. unfold SpecMetrics.summary, SpecMetrics.add. cbn.
  destruct (Error (doResult a)), (Error (doResult b)); repeat f_equal; lia.
Qed.

Lemma addResult_lookup (s : result) (m : gmap string SpecMetrics.t) (k : string) :
  addResult s m !! k =
    if decide (RequestLabel (doResult s) = k)
    then Some (SpecMetrics.add (default SpecMetrics.new (m !! k)) s)
    else m !! k.
Proof.
  unfold Runner2.addResult. cbn. case_decide as Hk.
  - subst k. rewrite lookup_insert_eq. by destruct (m !! _).
  - by rewrite lookup_insert_ne.
Qed.

Lemma addResult_same_summary s m1 m2 :
  same_summary m1 m2 -> same_summary (addResult s m1) (addResult s m2).
Proof.
  intros Hs k. rewrite !addResult_lookup. case_decide; [|apply Hs].
  cbn. f_equal. apply add_summary. specialize (Hs k).
  destruct (m1 !! k), (m2 !! k); cbn in *; congruence.
Qed.

(** Two outcomes can be added in either order. *)
Lemma addResult_swap a b m :
  same_summary (addResult a (addResult b m)) (addResult b (addResult a m)).
Proof.
  intros k. rewrite !addResult_lookup.
  repeat case_decide; cbn; try done.
  f_equal. apply add_add_summary.
Qed.

Lemma foldl_addResult_same_summary (l : list result) m1 m2 :
  same_summary m1 m2 ->
  same_summary (foldl (fun m s => addResult s m) m1 l)
               (foldl (fun m s => addResult s m) m2 l).
Proof.
  revert m1 m2. induction l as [|s l IH]; intros m1 m2 Hs; [done|].
  cbn. by apply IH, addResult_same_summary.
Qed.

Lemma foldl_addResult_permutation (l1 l2 : list result) :
  l1 ≡ₚ l2 ->
  forall m, same_summary (foldl (fun m s => addResult s m) m l1)
                         (foldl (fun m s => addResult s m) m l2).
Proof.
  induction 1 as [|s l1 l2 _ IH|a b l|l1 l2 l3 _ IH1 _ IH2]; intros m.
  - apply same_summary_refl.
  - cbn. apply IH.
  - cbn. apply foldl_addResult_same_summary, addResult_swap.
  - eapply same_summary_trans; [apply IH1 | apply IH2].
Qed.

Lemma finalize_summary (x y : SpecMetrics.t) :
  SpecMetrics.summary x = SpecMetrics.summary y ->
  SpecMetrics.summary (SpecMetrics.finalize window x) =
  SpecMetrics.summary (SpecMetrics.finalize window y).
Proof.
  destruct x, y. unfold SpecMetrics.summary, SpecMetrics.finalize. cbn.
  intros [= -> -> ->]. done.
Qed.

(** C8: fed through [addResult] in any order, the same outcomes give,
    once every record is finalised, a metrics map with the same labels
    and under every label the same count, the same error count and the
    same rate. *)
Theorem addResult_order_independent (l1 l2 : list result)
        (m0 : gmap string SpecMetrics.t) :
  l1 ≡ₚ l2 ->
  let aggregate (l : list result) :=
    SpecMetrics.finalize window <$> foldl (fun m s => addResult s m) m0 l in
  dom (aggregate l1) = dom (aggregate l2) /\
  forall label : string,
    SpecMetrics.summary <$> (aggregate l1 !! label) =
    SpecMetrics.summary <$> (aggregate l2 !! label).
Proof.
  intros Hp. cbn zeta.
  pose proof (foldl_addResult_permutation l1 l2 Hp m0) as Hs.
  set (r1 := foldl _ m0 l1) in *. set (r2 := foldl _ m0 l2) in *.
  assert (same_summary (SpecMetrics.finalize window <$> r1)
                       (SpecMetrics.finalize window <$> r2)) as Hf.
  { intros k. rewrite !lookup_fmap. specialize (Hs k).
    destruct (r1 !! k), (r2 !! k); cbn in *; try congruence.
    f_equal. apply finalize_summary. congruence. }
  split; [|exact Hf].
  apply set_eq. intros k. rewrite !elem_of_dom. specialize (Hf k).
  destruct (_ !! k), (_ !! k); cbn in Hf; try discriminate; split; eauto;
    intros [? ?]; discriminate.
Qed.

End Aggregation.

Section Shutdown.

Context {M : Type} {MO : MetricsOps M} {AI : AttackImpl}.

Abbreviation world := (@world M Z _ _).

(** A step that only appends events which are neither the start of a
    goroutine, nor a quit signal, nor a Teardown, and leaves the attackers
    alone, keeps a pool that is not yet shut down as it is. *)
Lemma quiet_step (w w' : world) (evs : list event) :
  trace w' = trace w ++ evs ->
  attackers w' = attackers w ->
  goroutines evs = [] -> quits evs = O -> teardowns evs = [] ->
  before_shutdown w -> before_shutdown w'.
Proof.
  unfold before_shutdown, pool_consistent.
  intros -> -> Hg Hq Ht (Hc & Hq0 & Ht0).
  autorewrite with trace_db. rewrite Hg, Hq, Ht, Hc, Hq0, Ht0.
  by rewrite !app_nil_r.
Qed.

Lemma logVerbose_before_shutdown m (w : world) :
  before_shutdown w -> before_shutdown (logVerbose m w).
Proof.
  apply (quiet_step w _ (if Verbose (config w) then [EvLog m] else [])).
  - apply logVerbose_trace.
  - apply logVerbose_attackers.
  - by destruct (Verbose _).
  - by destruct (Verbose _).
  - by destruct (Verbose _).
Qed.

Lemma spawnAttacker_before_shutdown (w : world) :
  before_shutdown w -> before_shutdown (spawnAttacker w).
Proof.
  unfold before_shutdown. intros (Hc & Hq & Ht).
  split; [by apply spawnAttacker_consistent|].
  destruct (spawnAttacker_eq w) as (_ & _ & _ & _ & _ & Hs).
  destruct (Setup _ _); destruct Hs as [_ ->];
    autorewrite with trace_db; rewrite Hq, Ht;
    destruct (Verbose (config w)); done.
Qed.

Lemma dispatchLoop_trace (n : nat) (w : world) :
  trace (dispatchLoop n w) = trace w ++ concat (replicate n [EvTake; EvNext]).
Proof.
  revert w. induction n as [|n IH]; intros w; cbn [dispatchLoop].
  - cbn. by rewrite app_nil_r.
  - rewrite IH. cbn. by rewrite <- !app_assoc.
Qed.

Lemma dispatch_before_shutdown (p : phase) (w : world) :
  before_shutdown w -> before_shutdown (dispatch p w).
Proof.
  destruct (dispatch_frame p w) as (_ & Ha & _).
  apply (quiet_step w _ (concat (replicate (ticks p) [EvTake; EvNext]))); try done.
  - unfold dispatch.
    destruct (collectResults_frame (outcomes p) (dispatchLoop (ticks p) w))
      as (_ & _ & _ & _ & ->).
    apply dispatchLoop_trace.
  - induction (ticks p); [done|]. cbn. by autorewrite with trace_db.
  - induction (ticks p) as [|n IH]; [done|].
    cbn [replicate concat]. rewrite quits_app, IH. done.
  - induction (ticks p); [done|]. cbn. by autorewrite with trace_db.
Qed.

Lemma forRounds_before_shutdown (n : nat) (s : Z) (w : world) :
  before_shutdown w -> before_shutdown (forRounds n s Runner1.spawnRound w).
Proof.
  revert s w. induction n as [|n IH]; intros s w Hc; cbn [forRounds]; [done|].
  destruct (Runner1.spawnRound s w) as [continue w1] eqn:Hsr.
  unfold Runner1.spawnRound in Hsr.
  destruct (s <? MaxAttackers (config w));
    [|destruct (Verbose (config w))]; injection Hsr as <- <-.
  - by apply IH, spawnAttacker_before_shutdown.
  - by apply (quiet_step w _ [EvLog (LogReachedMax (MaxAttackers (config w)))]).
  - by apply IH.
Qed.

Lemma growPool_before_shutdown (rate : float) (rps : Z) (w : world) :
  before_shutdown w -> before_shutdown (Runner1.growPool rate rps w).
Proof.
  intros Hc. unfold Runner1.growPool.
  destruct (Runner1.belowTarget rate rps); [|done].
  destruct (Runner1.belowThreshold rate rps).
  - by apply forRounds_before_shutdown, logVerbose_before_shutdown.
  - by apply logVerbose_before_shutdown.
Qed.

Lemma rampStep_before_shutdown (e : Env) (w : world) (i : Z) :
  before_shutdown w -> before_shutdown (Runner1.rampStep e w i).
Proof.
  intros Hc. unfold Runner1.rampStep. apply growPool_before_shutdown.
  set (w2 := emit (EvLimiter _) (set_resultsPipeline _ (set_rampMetrics _ w))).
  assert (before_shutdown w2) as Hc2.
  { by apply (quiet_step w _ [EvLimiter (Runner1.stepRate (config w) i)]). }
  apply (dispatch_before_shutdown (rampObs e i)) in Hc2.
  by apply (quiet_step (dispatch (rampObs e i) w2) _ [EvTake]).
Qed.

Lemma rampUp_before_shutdown (e : Env) (w : world) :
  before_shutdown w -> before_shutdown (world_of (Runner1.rampUp e w)).
Proof.
  intros Hc.
  assert (forall l (v : world), before_shutdown v ->
            before_shutdown (foldl (Runner1.rampStep e) v l)) as Hsteps.
  { induction l as [|i l IH]; intros v Hv; [done|].
    cbn. by apply IH, rampStep_before_shutdown. }
  assert (forall n, before_shutdown (Runner1.rampSteps e n w)) as Hn.
  { intros n. unfold Runner1.rampSteps. apply Hsteps.
    apply (quiet_step (spawnAttacker (logVerbose
             (LogBeginRampup (RampupTimeSec (config w))) w)) _ []); try done.
    - cbn. by rewrite app_nil_r.
    - by apply spawnAttacker_before_shutdown, logVerbose_before_shutdown. }
  unfold Runner1.rampUp.
  set (w1 := Runner1.rampSteps e _ w).
  specialize (Hn (Z.to_nat (RampupTimeSec (config w)))). fold w1 in Hn.
  cbn [config set_resultsPipeline rampMetrics].
  destruct (Verbose (config w1)); [destruct (rampMetrics w1)|]; cbn [world_of].
  - by apply (quiet_step w1 _ [EvLog (LogEndRampup (len w1))]).
  - apply (quiet_step w1 _ []); try done. cbn. by rewrite app_nil_r.
  - apply (quiet_step w1 _ []); try done. cbn. by rewrite app_nil_r.
Qed.

Lemma fullAttack_before_shutdown (p : phase) (w : world) :
  before_shutdown w -> before_shutdown (fullAttack p w).
Proof.
  intros Hc. unfold fullAttack. apply logVerbose_before_shutdown.
  apply dispatch_before_shutdown.
  set (w0 := logVerbose _ w).
  apply (quiet_step w0 _ [EvLimiter (RPS (config w0))]); try done.
  by apply logVerbose_before_shutdown.
Qed.

(** X3: a whole run of the earlier revision, from a fresh runner: when the
    report is written, as many quit signals have been sent as goroutines
    were started, and Teardown has been called on exactly the attackers
    that were started, in that order. *)
Lemma run_shutdown (e : Env) (c : Config) (w' : world) :
  Runner1.run e (Runner1.init (Runner1.newRunner c)) = Returns w' ->
  quits (trace w') = length (goroutines (trace w')) /\
  map fst (teardowns (trace w')) = goroutines (trace w') /\
  goroutines (trace w') = attackers w'.
Proof.
  unfold Runner1.run. set (w0 := emit EvGoCollect _).
  assert (before_shutdown w0) as Hc0 by done.
  pose proof (rampUp_before_shutdown e w0 Hc0) as Hc1.
  destruct (Runner1.rampUp e w0) as [w1|w1] eqn:Hr; [|discriminate].
  cbn [world_of] in Hc1. intros [= <-].
  pose proof (fullAttack_before_shutdown (fullObs e) w1 Hc1) as (Hg2 & Hq2 & Ht2).
  set (w2 := fullAttack (fullObs e) w1) in *. unfold pool_consistent in Hg2.
  destruct (quitAttackers_eq w2) as (Htq & Haq & _).
  set (w3 := quitAttackers w2) in *.
  destruct (tearDownAttackers_eq w3) as (Htt & Hgt & Hqt & Hat).
  set (w4 := tearDownAttackers w3) in *.
  assert (goroutines (trace (Runner1.reportMetrics e w4)) = goroutines (trace w4) /\
          quits (trace (Runner1.reportMetrics e w4)) = quits (trace w4) /\
          teardowns (trace (Runner1.reportMetrics e w4)) = teardowns (trace w4) /\
          attackers (Runner1.reportMetrics e w4) = attackers w4)
    as (-> & -> & -> & ->).
  { unfold Runner1.reportMetrics. destruct (_ && _); cbn [emit trace set_store attackers];
      autorewrite with trace_db; cbn; rewrite ?app_nil_r; repeat split; lia. }
  rewrite Htt, Hgt, Hqt, Hat, Haq, Htq. autorewrite with trace_db.
  rewrite quits_replicate, goroutines_replicate_quit, Hq2, Ht2, Hg2.
  assert (forall k, teardowns (replicate k EvQuit) = []) as Hrep
    by (induction k; done).
  rewrite Hrep.
  destruct (Verbose (config w2)); cbn; rewrite ?app_nil_r, map_map; cbn;
    rewrite map_id; repeat split; try done; lia.
Qed.

End Shutdown.

(** * Further properties of the runner *)

Section PhaseFacts.

Context {M : Type} {MO : MetricsOps M} {AI : AttackImpl}.
Context {K : Type} `{Countable K}.

Abbreviation world := (@world M K _ _).




Lemma dispatchLoop_rounds (n : nat) (w : world) :
  trace (dispatchLoop n w) = trace w ++ concat (replicate n [EvTake; EvNext]).
Proof.
  revert w. induction n as [|n IH]; intros w; cbn [dispatchLoop].
  - cbn. by rewrite app_nil_r.
  - rewrite IH. cbn. by rewrite <- !app_assoc.
Qed.

Lemma rounds_silent (n : nat) :
  goroutines (concat (replicate n [EvTake; EvNext])) = [] /\
  clones (concat (replicate n [EvTake; EvNext])) = [] /\
  teardowns (concat (replicate n [EvTake; EvNext])) = [] /\
  calls (concat (replicate n [EvTake; EvNext])) = [] /\
  quits (concat (replicate n [EvTake; EvNext])) = O /\
  dispatches (concat (replicate n [EvTake; EvNext])) = n.
Proof.
  induction n as [|n (Hg & Hc & Ht & Hd & Hq & Hn)]; [done|].
  cbn [replicate concat].
  rewrite goroutines_app, clones_app, teardowns_app, calls_app, quits_app,
    dispatches_app, Hg, Hc, Ht, Hd, Hq, Hn.
  done.
Qed.

(** What [fullAttack] appends to the trace, and what it leaves alone. *)
Lemma fullAttack_eq (p : phase) (w : world) :
  let w' := fullAttack p w in
  (exists before after,
      Forall (fun ev => is_log ev = true) before /\
      Forall (fun ev => is_log ev = true) after /\
      trace w' = trace w ++ before ++ [EvLimiter (RPS (config w))]
                   ++ concat (replicate (ticks p) [EvTake; EvNext]) ++ after) /\
  dispatches (trace w') = (dispatches (trace w) + ticks p)%nat /\
  attackers w' = attackers w /\
  config w' = config w /\
  clones (trace w') = clones (trace w) /\
  goroutines (trace w') = goroutines (trace w) /\
  quits (trace w') = quits (trace w) /\
  teardowns (trace w') = teardowns (trace w).
Proof.
  cbn zeta. unfold fullAttack.
  set (m0 := LogBeginFullAttack _).
  set (w0 := logVerbose m0 w).
  assert (config w0 = config w) as Hc0 by apply logVerbose_config.
  set (w1 := emit (EvLimiter (RPS (config w0))) w0).
  set (w2 := dispatch p w1).
  assert (trace w2 = trace w ++ (if Verbose (config w) then [EvLog m0] else [])
                       ++ [EvLimiter (RPS (config w))]
                       ++ concat (replicate (ticks p) [EvTake; EvNext])) as Ht2.
  { unfold w2, dispatch.
    destruct (collectResults_frame (outcomes p) (dispatchLoop (ticks p) w1))
      as (_ & _ & _ & _ & ->).
    rewrite dispatchLoop_rounds. unfold w1. cbn [emit trace].
    unfold w0. rewrite logVerbose_trace, logVerbose_config.
    by rewrite <- !app_assoc. }
  destruct (dispatch_frame p w1) as (Hc2 & Ha2 & _).
  assert (config w2 = config w) as Hcw by (unfold w2; rewrite Hc2; exact Hc0).
  assert (attackers w2 = attackers w) as Haw
    by (unfold w2; rewrite Ha2; apply (logVerbose_attackers m0 w)).
  assert (trace (logVerbose LogEndFullAttack w2) =
          trace w ++ (if Verbose (config w) then [EvLog m0] else [])
            ++ [EvLimiter (RPS (config w))]
            ++ concat (replicate (ticks p) [EvTake; EvNext])
            ++ (if Verbose (config w) then [EvLog LogEndFullAttack] else [])) as Ht.
  { rewrite logVerbose_trace, Ht2, Hcw. by rewrite <- !app_assoc. }
  destruct (rounds_silent (ticks p)) as (Hg & Hcl & Htd & _ & Hq & Hn).
  rewrite logVerbose_attackers, logVerbose_config, Ht.
  autorewrite with trace_db. rewrite Hg, Hcl, Htd, Hq, Hn.
  split.
  { exists (if Verbose (config w) then [EvLog m0] else []),
           (if Verbose (config w) then [EvLog LogEndFullAttack] else []).
    split; [|split; [|done]]; destruct (Verbose (config w)); by repeat constructor. }
  destruct (Verbose (config w)); cbn; rewrite ?app_nil_r; repeat split; try done; lia.
Qed.

(** X9: the full attack creates one limiter, at the configured RPS, and then
    takes a token and sends one dispatch signal per round, for as many
    rounds as the window allows; it leaves the pool alone: no clone, no
    goroutine, no quit signal, no Teardown, the attackers as they were. *)
Theorem fullAttack_dispatch_only (p : phase) (w : world) :
  let w' := fullAttack p w in
  (exists before after,
      Forall (fun ev => is_log ev = true) before /\
      Forall (fun ev => is_log ev = true) after /\
      trace w' = trace w ++ before ++ [EvLimiter (RPS (config w))]
                   ++ concat (replicate (ticks p) [EvTake; EvNext]) ++ after) /\
  dispatches (trace w') = (dispatches (trace w) + ticks p)%nat /\
  attackers w' = attackers w /\
  config w' = config w /\
  clones (trace w') = clones (trace w) /\
  goroutines (trace w') = goroutines (trace w) /\
  quits (trace w') = quits (trace w) /\
  teardowns (trace w') = teardowns (trace w).
Proof. exact (fullAttack_eq p w). Qed.

End PhaseFacts.

Section LabelledMetrics.

Context {M : Type} {MO : MetricsOps M}.

Abbreviation addResult := (Runner2.addResult (M := M)).

Lemma addResult_lookup_label (s : result) (m : gmap string M) (k : string) :
  addResult s m !! k =
    if decide (RequestLabel (doResult s) = k)
    then Some (add (default new_Metrics (m !! k)) s)
    else m !! k.
Proof.
  unfold Runner2.addResult. cbn. case_decide as Hk.
  - subst k. rewrite lookup_insert_eq. by destruct (m !! _).
  - by rewrite lookup_insert_ne.
Qed.

(** X1: after any outcomes have gone through [addResult], the record under
    a label is the record that was there before (a fresh one if there was
    none) with exactly the outcomes of that label added, in their order of
    arrival; a label no outcome carries is as it was, also when it is
    missing. *)
Theorem addResult_groups_by_label (l : list result) (m0 : gmap string M)
        (k : string) :
  let mine := filter (fun s => RequestLabel (doResult s) = k) l in
  foldl (fun m s => addResult s m) m0 l !! k =
    match mine with
    | [] => m0 !! k
    | _ => Some (foldl add (default new_Metrics (m0 !! k)) mine)
    end.
Proof.
  cbn zeta. revert m0. induction l as [|s l IH]; intros m0; [done|].
  cbn [foldl]. rewrite IH, addResult_lookup_label.
  rewrite filter_cons. case_decide as Hk; [|done].
  cbn [foldl]. by destruct (filter _ l).
Qed.

(** X2: [addResult] never drops a label: the labels of the metrics map after
    any outcomes are the labels it had before together with the labels of
    the outcomes. *)
Theorem addResult_labels (l : list result) (m0 : gmap string M) :
  dom (foldl (fun m s => addResult s m) m0 l) =
    dom m0 ∪ list_to_set ((fun s => RequestLabel (doResult s)) <$> l).
Proof.
  revert m0. induction l as [|s l IH]; intros m0.
  - cbn. by rewrite (right_id_L ∅ (∪)).
  - cbn [foldl]. rewrite IH. unfold Runner2.addResult.
    rewrite dom_insert_L, fmap_cons, list_to_set_cons.
    apply set_eq. intros x. rewrite !elem_of_union, elem_of_singleton. tauto.
Qed.

End LabelledMetrics.

Section LinearRampUpFurther.

Context {M : Type} {MO : MetricsOps M} {AI : AttackImpl}.

Abbreviation world := (@world M Z _ _).

Lemma stepRate_exact (c : Config) (i : Z) :
  0 <= i -> 0 < RampupTimeSec c -> 0 < RPS c -> i * RPS c <= GoInt.max_int ->
  Runner1.stepRate c i = Z.max 1 (i * RPS c / RampupTimeSec c).
Proof.
  intros Hi Hn Hr Hfit.
  unfold Runner1.stepRate, GoInt.div, GoInt.mul.
  assert (0 <= i * RPS c) as Hnn by nia.
  rewrite (wrap_in_range (i * RPS c))
    by (unfold GoInt.in_range, GoInt.min_int, GoInt.max_int in *; lia).
  rewrite Z.quot_div_nonneg by lia.
  assert (0 <= i * RPS c / RampupTimeSec c <= i * RPS c) as Hq.
  { split; [apply Z.div_pos; lia | apply Z.div_le_upper_bound; nia]. }
  rewrite wrap_in_range
    by (unfold GoInt.in_range, GoInt.min_int, GoInt.max_int in *; lia).
  destruct (Z.eqb_spec (i * RPS c / RampupTimeSec c) 0); lia.
Qed.

(** X6: as long as [N*R] fits Go's [int], the rates of the ramp-up seconds
    never decrease from one second to a later one, stay between 1 and the
    configured rate [R], and the last second runs at exactly [R]. *)
Theorem stepRate_ramps_to_RPS (c : Config) (i j : Z) :
  1 <= i -> i <= j -> j <= RampupTimeSec c ->
  0 < RPS c ->
  RampupTimeSec c * RPS c <= GoInt.max_int ->
  1 <= Runner1.stepRate c i /\
  Runner1.stepRate c i <= Runner1.stepRate c j /\
  Runner1.stepRate c j <= RPS c /\
  Runner1.stepRate c (RampupTimeSec c) = RPS c.
Proof.
  intros Hi Hij Hj Hr Hfit.
  assert (forall k, 0 <= k <= RampupTimeSec c ->
            Runner1.stepRate c k = Z.max 1 (k * RPS c / RampupTimeSec c)) as Hex.
  { intros k Hk. apply stepRate_exact; try lia. nia. }
  rewrite (Hex i), (Hex j), (Hex (RampupTimeSec c)) by lia.
  assert (i * RPS c / RampupTimeSec c <= j * RPS c / RampupTimeSec c) as Hmono
    by (apply Z.div_le_mono; nia).
  assert (j * RPS c / RampupTimeSec c <= RPS c) as Hup
    by (apply Z.div_le_upper_bound; nia).
  assert (RampupTimeSec c * RPS c / RampupTimeSec c = RPS c) as Hlast
    by (rewrite Z.mul_comm; apply Z.div_mul; lia).
  rewrite Hlast. lia.
Qed.

(** X7: the sample call of the earlier revision clones the prototype once
    and sets the probe up; when Setup succeeds it calls [Do] exactly once
    and then Teardown, when Setup fails it calls neither.  The pool is not
    touched and no goroutine is started. *)
Theorem test_one_call (w : world) :
  let probe := S (cloned w) in
  let w' := Runner1.test w in
  clones (trace w') = clones (trace w) ++ [probe] /\
  attackers w' = attackers w /\
  goroutines (trace w') = goroutines (trace w) /\
  match Setup probe (config w) with
  | Some _ =>
      calls (trace w') = calls (trace w) /\
      teardowns (trace w') = teardowns (trace w)
  | None =>
      calls (trace w') = calls (trace w) ++ [probe] /\
      teardowns (trace w') = teardowns (trace w) ++ [(probe, Teardown probe)]
  end.
Proof.
  cbn zeta. unfold Runner1.test, Clone. cbn [config emit].
  destruct (Setup (S (cloned w)) (config w)) as [err|];
    unfold log, emit; cbn [trace attackers];
    autorewrite with trace_db; cbn; by rewrite ?app_nil_r.
Qed.

Lemma spawnAttacker_prefix (w : world) :
  attackers w `prefix_of` attackers (spawnAttacker w).
Proof.
  destruct (spawnAttacker_eq w) as (_ & _ & _ & _ & _ & Hs).
  destruct (Setup _ _); destruct Hs as [-> _]; [done | by apply prefix_app_r].
Qed.

Lemma forRounds_prefix (n : nat) (s : Z) (w : world) :
  attackers w `prefix_of` attackers (forRounds n s Runner1.spawnRound w).
Proof.
  revert s w. induction n as [|n IH]; intros s w; cbn [forRounds]; [done|].
  destruct (Runner1.spawnRound s w) as [continue w1] eqn:Hsr.
  unfold Runner1.spawnRound in Hsr.
  destruct (s <? MaxAttackers (config w));
    [|destruct (Verbose (config w))]; injection Hsr as <- <-.
  - etrans; [apply spawnAttacker_prefix | apply IH].
  - done.
  - apply IH.
Qed.

Lemma growPool_prefix (rate : float) (rps : Z) (w : world) :
  attackers w `prefix_of` attackers (Runner1.growPool rate rps w).
Proof.
  unfold Runner1.growPool.
  destruct (Runner1.belowTarget rate rps); [|done].
  destruct (Runner1.belowThreshold rate rps).
  - unfold forRange. etrans; [|apply forRounds_prefix].
    by rewrite logVerbose_attackers.
  - by rewrite logVerbose_attackers.
Qed.

Lemma rampStep_prefix (e : Env) (w : world) (i : Z) :
  attackers w `prefix_of` attackers (Runner1.rampStep e w i).
Proof.
  unfold Runner1.rampStep. etrans; [|apply growPool_prefix].
  cbn [set_rampMetrics emit attackers].
  match goal with |- context [dispatch ?p ?v] =>
    destruct (dispatch_frame p v) as (_ & -> & _) end.
  done.
Qed.

(** The seconds of a ramp-up leave configuration and metrics map alone and
    only ever append to the pool. *)
Lemma rampSteps_frame (e : Env) (n : nat) (w : world) :
  config (Runner1.rampSteps e n w) = config w /\
  metrics (Runner1.rampSteps e n w) = metrics w /\
  attackers (spawnAttacker (logVerbose (LogBeginRampup (RampupTimeSec (config w))) w))
    `prefix_of` attackers (Runner1.rampSteps e n w).
Proof.
  unfold Runner1.rampSteps.
  set (w0 := logVerbose _ w).
  destruct (logVerbose_store (LogBeginRampup (RampupTimeSec (config w))) w)
    as (Hm0 & _ & _). fold w0 in Hm0.
  destruct (spawnAttacker_eq w0) as (Hc1 & _ & Hm1 & _).
  set (w2 := set_rampMetrics None (spawnAttacker w0)).
  assert (forall l (v : world),
            config (foldl (Runner1.rampStep e) v l) = config v /\
            metrics (foldl (Runner1.rampStep e) v l) = metrics v /\
            attackers v `prefix_of` attackers (foldl (Runner1.rampStep e) v l)) as Hl.
  { induction l as [|i l IH]; intros v; [done|]. cbn [foldl].
    destruct (IH (Runner1.rampStep e v i)) as (-> & -> & Hp).
    destruct (rampStep_eq e v i) as (-> & -> & _).
    repeat split; try done. etrans; [apply rampStep_prefix | exact Hp]. }
  assert (config w2 = config w) as Hc2
    by (change (config w2) with (config (spawnAttacker w0)); rewrite Hc1;
        apply logVerbose_config).
  assert (metrics w2 = metrics w) as Hm2
    by (change (metrics w2) with (metrics (spawnAttacker w0)); by rewrite Hm1).
  destruct (Hl (Runner1.seconds n) w2) as (-> & -> & Hp).
  repeat split; done.
Qed.

Lemma rampSteps_rampMetrics (e : Env) (n : nat) (w : world) :
  rampMetrics (Runner1.rampSteps e n w) =
    match n with
    | O => None
    | S _ => Some (updateLatencies
                     (foldl add new_Metrics (outcomes (rampObs e (Z.of_nat n)))))
    end.
Proof.
  unfold Runner1.rampSteps. destruct n as [|n]; [done|].
  unfold Runner1.seconds. rewrite seq_S, fmap_app, foldl_app. cbn [fmap list_fmap foldl].
  match goal with |- rampMetrics (Runner1.rampStep e ?v ?i) = _ =>
    destruct (rampStep_eq e v i) as (_ & _ & -> & _) end.
  done.
Qed.

(** X5: [rampUp] of the earlier revision panics exactly when [Verbose] is set
    and [RampupTimeSec] is below 1: no second has then run, and the closing
    log line reads the rate through the nil [rampMetrics].  It panics in no
    other case.  A ramp-up that panics has sent no dispatch signal, so that
    no send stands between its start and the panic. *)
Theorem rampUp_panics_iff (e : Env) (w : world) :
  ((exists w', Runner1.rampUp e w = Panics w') <->
   Verbose (config w) = true /\ RampupTimeSec (config w) <= 0) /\
  (forall w', Runner1.rampUp e w = Panics w' ->
              dispatches (trace w') = dispatches (trace w)).
Proof.
  assert ((exists w', Runner1.rampUp e w = Panics w') <->
          Verbose (config w) = true /\ RampupTimeSec (config w) <= 0) as Hiff.
  { unfold Runner1.rampUp.
    pose proof (rampSteps_rampMetrics e (Z.to_nat (RampupTimeSec (config w))) w) as Hr.
    destruct (rampSteps_frame e (Z.to_nat (RampupTimeSec (config w))) w) as (Hc & _).
    set (w1 := Runner1.rampSteps e _ w) in *.
    cbn [config set_resultsPipeline rampMetrics]. rewrite Hc, Hr.
    destruct (Verbose (config w)).
    - destruct (Z.to_nat (RampupTimeSec (config w))) eqn:Hn.
      + split; [intros _; split; [done | lia] | intros _; eauto].
      + split; [intros [w' Hw']; discriminate | intros [_ Hle]; lia].
    - split; [intros [w' Hw']; discriminate | intros [Hv _]; discriminate]. }
  split; [exact Hiff|]. intros w' Hp.
  destruct (proj1 Hiff (ex_intro _ w' Hp)) as [_ Hn].
  assert (Z.to_nat (RampupTimeSec (config w)) = O) as Hz by lia.
  unfold Runner1.rampUp in Hp. rewrite Hz in Hp. unfold Runner1.rampSteps in Hp.
  cbn [Runner1.seconds seq fmap list_fmap foldl] in Hp.
  set (wl := logVerbose (LogBeginRampup (RampupTimeSec (config w))) w) in *.
  cbn [config set_resultsPipeline set_rampMetrics rampMetrics] in Hp.
  assert (trace w' = trace (spawnAttacker wl)) as ->.
  { destruct (Verbose (config (spawnAttacker wl))); [|discriminate].
    by injection Hp as <-. }
  assert (dispatches (trace wl) = dispatches (trace w)) as Hd.
  { unfold wl. rewrite logVerbose_trace, dispatches_app.
    destruct (Verbose (config w)).
    - change (dispatches [EvLog (LogBeginRampup (RampupTimeSec (config w)))]) with O. lia.
    - change (dispatches []) with O. lia. }
  destruct (spawnAttacker_eq wl) as (_ & _ & _ & _ & _ & Hs).
  destruct (Setup _ _); destruct Hs as [_ ->];
    autorewrite with trace_db; rewrite Hd;
    destruct (Verbose (config wl)); cbn; lia.
Qed.

End LinearRampUpFurther.

Section LinearRunFurther.

Context {M : Type} {MO : MetricsOps M} {AI : AttackImpl}.

Abbreviation world := (@world M Z _ _).


(** X8: the ramp-up of the earlier revision only ever appends to the pool,
    so an attacker once registered keeps its place; and when Setup of the
    bootstrap clone succeeds the pool has grown by at least that one. *)
Theorem rampUp_only_appends (e : Env) (w : world) :
  let w' := world_of (Runner1.rampUp e w) in
  attackers w `prefix_of` attackers w' /\
  match Setup (S (cloned w)) (config w) with
  | None => len w + 1 <= len w'
  | Some _ => len w <= len w'
  end.
Proof.
  cbn zeta. destruct (rampUp_world e w) as (_ & Ha & _). cbn zeta in Ha.
  destruct (rampSteps_frame e (Z.to_nat (RampupTimeSec (config w))) w) as (_ & _ & Hp).
  set (w0 := logVerbose (LogBeginRampup (RampupTimeSec (config w))) w) in *.
  destruct (spawnAttacker_eq w0) as (_ & _ & _ & _ & _ & Hs).
  assert (config w0 = config w) as Hc0 by apply logVerbose_config.
  assert (cloned w0 = cloned w) as Hn0 by apply logVerbose_cloned.
  assert (attackers w0 = attackers w) as Ha0 by apply logVerbose_attackers.
  rewrite Hn0, Hc0, Ha0 in Hs.
  unfold len. rewrite Ha. apply prefix_length in Hp as Hlen.
  destruct (Setup (S (cloned w)) (config w)); destruct Hs as [Hs _]; rewrite Hs in *.
  - split; [done | lia].
  - rewrite length_app in Hlen. cbn in Hlen.
    split; [|lia]. etrans; [|exact Hp]. by apply prefix_app_r.
Qed.

(** X14: with [RampupTimeSec] below 1 the ramp-up of the earlier revision is
    the bootstrap spawn and nothing more: no limiter is created, nothing is
    dispatched, no further attacker is spawned, and not even the closing
    log line is written (a quiet run has none, a verbose one panics on
    it). *)
Theorem rampUp_zero_seconds (e : Env) (w : world) :
  RampupTimeSec (config w) <= 0 ->
  let w0 := spawnAttacker (logVerbose (LogBeginRampup (RampupTimeSec (config w))) w) in
  let w' := world_of (Runner1.rampUp e w) in
  trace w' = trace w0 /\
  attackers w' = attackers w0 /\
  spawnCalls w' = S (spawnCalls w) /\
  dispatches (trace w') = dispatches (trace w).
Proof.
  intros Hn. cbn zeta.
  assert (Z.to_nat (RampupTimeSec (config w)) = O) as Hz by lia.
  unfold Runner1.rampUp. rewrite Hz. unfold Runner1.rampSteps.
  cbn [Runner1.seconds seq fmap list_fmap foldl].
  set (wl := logVerbose (LogBeginRampup (RampupTimeSec (config w))) w).
  set (w0 := spawnAttacker wl).
  cbn [config set_resultsPipeline set_rampMetrics rampMetrics].
  assert (trace (world_of
            (if Verbose (config w0)
             then Panics (set_resultsPipeline (Some Runner1.addResultPipe)
                            (set_rampMetrics None w0))
             else Returns (set_resultsPipeline (Some Runner1.addResultPipe)
                            (set_rampMetrics None w0)))) = trace w0 /\
          attackers (world_of
            (if Verbose (config w0)
             then Panics (set_resultsPipeline (Some Runner1.addResultPipe)
                            (set_rampMetrics None w0))
             else Returns (set_resultsPipeline (Some Runner1.addResultPipe)
                            (set_rampMetrics None w0)))) = attackers w0) as [Ht Ha]
    by (by destruct (Verbose (config w0))).
  unfold spawnCalls at 1. rewrite !Ht, Ha. fold (spawnCalls w0).
  split; [done|]. split; [done|].
  assert (spawnCalls wl = spawnCalls w /\ dispatches (trace wl) = dispatches (trace w))
    as [Hk Hd].
  { unfold spawnCalls, wl.
    rewrite logVerbose_trace, clones_app, dispatches_app, length_app.
    destruct (Verbose (config w)).
    - change (clones [EvLog (LogBeginRampup (RampupTimeSec (config w)))])
        with (@nil Attack).
      change (dispatches [EvLog (LogBeginRampup (RampupTimeSec (config w)))]) with O.
      cbn [length]. split; lia.
    - change (clones []) with (@nil Attack). change (dispatches []) with O.
      cbn [length]. split; lia. }
  pose proof (spawnAttacker_calls wl) as Hcalls. fold w0 in Hcalls.
  split; [by rewrite Hcalls, Hk|].
  destruct (spawnAttacker_eq wl) as (_ & _ & _ & _ & _ & Hs). fold w0 in Hs.
  destruct (Setup _ _); destruct Hs as [_ ->];
    autorewrite with trace_db; rewrite Hd;
    destruct (Verbose (config wl)); cbn; lia.
Qed.

End LinearRunFurther.

Section StrategyRunFurther.

Context {M : Type} {MO : MetricsOps M} {AI : AttackImpl}.

Abbreviation world := (@world M string _ _).

Variable Validate : Config -> list string.
Variable rampupStrategy : Config -> string.
Variable linearStrategy : world -> world.
Variable spawnAsWeNeedStrategy : world -> world.

Abbreviation rampUp := (Runner2.rampUp rampupStrategy linearStrategy spawnAsWeNeedStrategy).
Abbreviation run := (Runner2.run rampupStrategy linearStrategy spawnAsWeNeedStrategy).
Abbreviation Run :=
  (Runner2.Run Validate rampupStrategy linearStrategy spawnAsWeNeedStrategy).

Lemma no_pipeline_event_no_goroutine (t : list event) :
  Forall (fun ev => is_pipeline_event ev = false) t -> goroutines t = [].
Proof.
  induction 1 as [|ev t Hev _ IH]; [done|].
  destruct ev; cbn in *; try done; discriminate.
Qed.

(** X13: [test] clones the prototype once and sets the probe up; when Setup
    succeeds it calls [Do] as many times as the count says, not at all for
    a count of zero or less, and then Teardown once; when Setup fails it
    calls neither [Do] nor Teardown.  The pool is not touched and no
    goroutine is started. *)
Theorem test_calls_by_count (count : Z) (w : world) :
  let probe := S (cloned w) in
  let w' := Runner2.test count w in
  clones (trace w') = clones (trace w) ++ [probe] /\
  attackers w' = attackers w /\
  goroutines (trace w') = goroutines (trace w) /\
  match Setup probe (config w) with
  | Some _ =>
      calls (trace w') = calls (trace w) /\
      teardowns (trace w') = teardowns (trace w)
  | None =>
      calls (trace w') = calls (trace w) ++ replicate (Z.to_nat count) probe /\
      teardowns (trace w') = teardowns (trace w) ++ [(probe, Teardown probe)]
  end.
Proof.
  cbn zeta. destruct (test_eq count w) as (Ha & Ht). cbn zeta in Ht.
  destruct (sampleCalls_calls (S (cloned w)) O (Z.to_nat count))
    as (Hcalls & Hclones & Htd & Hfa).
  apply no_pipeline_event_no_goroutine in Hfa.
  rewrite Ht, Ha. destruct (Setup (S (cloned w)) (config w));
    autorewrite with trace_db; rewrite ?Hcalls, ?Hclones, ?Htd, ?Hfa;
    cbn; by rewrite ?app_nil_r.
Qed.

Lemma foldl_print (msg : list string) (w : world) :
  trace (foldl (fun w each => emit (EvPrint each) w) w msg) =
    trace w ++ (EvPrint <$> msg) /\
  attackers (foldl (fun w each => emit (EvPrint each) w) w msg) = attackers w /\
  resultsPipeline (foldl (fun w each => emit (EvPrint each) w) w msg) =
    resultsPipeline w.
Proof.
  revert w. induction msg as [|m msg IH]; intros w; cbn [foldl].
  - cbn. by rewrite app_nil_r.
  - destruct (IH (emit (EvPrint m) w)) as (-> & -> & ->).
    cbn. by rewrite <- app_assoc.
Qed.

(** X12: outside the sample mode, a configuration that [Validate] rejects
    ends [Run] before anything is built: every message is printed, in
    order, then the usage, and the process exits with status 0.  No report
    comes back, the prototype is never cloned, no goroutine is started and
    nothing is dispatched. *)
Theorem Run_invalid_config (N : Z) (e : Env) (c : Config) :
  N <= 0 ->
  Validate c <> [] ->
  let '(report, w) := Run N e c in
  report = None /\
  trace w = (if Verbose c then [EvLog LogBanner] else [])
              ++ [EvValidate] ++ (EvPrint <$> Validate c)
              ++ [EvPrint ""; EvUsage; EvExit 0] /\
  attackers w = [] /\
  resultsPipeline w = None /\
  clones (trace w) = [] /\
  goroutines (trace w) = [] /\
  dispatches (trace w) = O.
Proof.
  intros HN Hmsg. unfold Runner2.Run.
  destruct (Z.ltb_spec 0 N) as [?|_]; [lia|].
  set (w0 := logVerbose LogBanner (Runner2.newRunner c)).
  assert (trace w0 = if Verbose c then [EvLog LogBanner] else []) as Ht0.
  { unfold w0. rewrite logVerbose_trace. by destruct (Verbose _). }
  assert (attackers w0 = []) as Ha0 by apply logVerbose_attackers.
  assert (resultsPipeline w0 = None) as Hp0
    by (unfold w0;
        by destruct (logVerbose_store LogBanner (Runner2.newRunner (M := M) c))
          as (_ & _ & ->)).
  destruct (Validate c) as [|m msg] eqn:Hv; [done|].
  destruct (foldl_print (m :: msg) (emit EvValidate w0)) as (Ht & Ha & Hp).
  set (w1 := foldl _ (emit EvValidate w0) (m :: msg)) in *.
  assert (trace (emit (EvExit 0) (emit EvUsage (emit (EvPrint "") w1))) =
          (if Verbose c then [EvLog LogBanner] else [])
            ++ [EvValidate] ++ (EvPrint <$> m :: msg)
            ++ [EvPrint ""; EvUsage; EvExit 0]) as Htr.
  { cbn [emit trace]. rewrite Ht. cbn [emit trace]. rewrite Ht0.
    by rewrite <- !app_assoc. }
  split; [done|]. split; [exact Htr|]. rewrite Htr.
  assert (forall l : list string,
            clones (EvPrint <$> l) = [] /\ goroutines (EvPrint <$> l) = [] /\
            dispatches (EvPrint <$> l) = O) as Hprint
    by (induction l as [|? ? (? & ? & ?)]; done).
  destruct (Hprint (m :: msg)) as (Hc & Hg & Hd).
  autorewrite with trace_db. rewrite Hc, Hg, Hd.
  cbn [emit attackers resultsPipeline]. rewrite Ha, Hp.
  destruct (Verbose c); done.
Qed.


End StrategyRunFurther.

(** * The properties on concrete runs *)

Section Examples.

Import Stub.

Abbreviation world1 := (@world SpecMetrics.t Z _ _).
Abbreviation world2 := (@world SpecMetrics.t string _ _).

Lemma rampUp_pool_within_MaxAttackers_witness :
  let w : world1 := Runner1.init (MO := metrics1s) (Runner1.newRunner quiet) in
  (forall n : nat,
      len (Runner1.rampSteps (MO := metrics1s) (AI := sound) slow n w) <= 10) /\
  len (world_of (Runner1.rampUp (MO := metrics1s) (AI := sound) slow w)) <= 10.
Proof.
  apply (rampUp_pool_within_MaxAttackers (MO := metrics1s) (AI := sound) slow
           (Runner1.init (MO := metrics1s) (Runner1.newRunner quiet))).
  - cbn. lia.
  - reflexivity.
Defined.

(** With one outcome a second the rate falls short of every second's
    target: the pool grows 1, 2, 8 and then stops at the maximum of 10. *)
Example rampUp_slow_grows_to_max :
  let w : world1 := Runner1.init (MO := metrics1s) (Runner1.newRunner quiet) in
  map (fun n => len (Runner1.rampSteps (MO := metrics1s) (AI := sound) slow n w))
      [0; 1; 2; 3; 4; 5]%nat = [1; 2; 8; 10; 10; 10].
Proof. vm_compute. reflexivity. Qed.

(** When Setup fails on the probe, the sample mode ends without a call. *)
Example Run_sample_broken_setup :
  calls (trace (Runner2.Run (MO := metrics1s) (AI := broken)
                  (fun _ => []) (fun _ => "exp2") id id 3 slow loud).2) = [].
Proof. vm_compute. reflexivity. Qed.

(** C3 as stated fails: a second with target 10 measures 6.  The rate is
    positive and its ratio to the target, 0.6, is below 0.9, the pool of
    one is below the maximum of 10 and Setup would succeed, yet
    [int(Trunc(10/6)) * 1] is 1, the current size, and [spawnAttacker] is
    not called. *)
Lemma growPool_no_spawn_above_half_target :
  let w : world1 := one_attacker in
  let rate := Runner1.measuredRate (MO := metrics1s) w in
  let w' := Runner1.growPool (AI := sound) rate 10 w in
  rate = 6%float /\
  (0 <? rate)%float = true /\
  (rate / GoFloat.of_int 10 <? Runner1.spawnThresholdRatio)%float = true /\
  len w < MaxAttackers (config w) /\
  Runner1.wantedAttackers rate 10 (len w) = 1 /\
  spawnCalls w' = spawnCalls w /\
  attackers w' = attackers w /\
  ~ ((spawnCalls w < spawnCalls w')%nat <->
     ((0 <? rate)%float = true /\
      (rate / GoFloat.of_int 10 <? Runner1.spawnThresholdRatio)%float = true)).
Proof.
  cbn zeta. repeat split; try (vm_compute; reflexivity).
  intros [_ Hspawn].
  assert ((spawnCalls one_attacker <
           spawnCalls (Runner1.growPool (AI := sound)
                         (Runner1.measuredRate (MO := metrics1s) one_attacker) 10 one_attacker))%nat) as Hlt.
  { apply Hspawn. split; vm_compute; reflexivity. }
  vm_compute in Hlt. lia.
Qed.

(** Below half of the target the pool grows: 4 of 10 wants two attackers. *)
Example growPool_spawns_below_half_target :
  attackers (Runner1.growPool (AI := sound) 4%float 10 one_attacker) = [1; 2]%nat.
Proof. vm_compute. reflexivity. Qed.

(** The quotient is a [float64] quotient: (3*2^52+2) / (2^52+1) is below 3
    but rounds to 3, so three attackers are wanted where the exact quotient
    has integer part 2. *)
Example wantedAttackers_rounded_quotient :
  Runner1.wantedAttackers (GoFloat.of_int (2 ^ 52 + 1)) (3 * 2 ^ 52 + 2) 1 = 3 /\
  (3 * 2 ^ 52 + 2) / (2 ^ 52 + 1) = 2.
Proof. vm_compute. split; reflexivity. Qed.

Lemma quitAttackers_one_signal_per_unit_witness :
  let w : world2 := Runner2.init (MO := metrics1s) (Runner2.newRunner quiet) in
  let w1 := Nat.iter 3 (spawnAttacker (AI := sound)) w in
  let w2 := quitAttackers w1 in
  quits (trace w2) = (quits (trace w1) + length (attackers w1))%nat /\
  goroutines (trace w2) = attackers w1.
Proof.
  cbn zeta.
  destruct (quitAttackers_one_signal_per_unit (AI := sound)
              (Runner2.init (MO := metrics1s) (Runner2.newRunner quiet)) 3 eq_refl)
    as (_ & Hq & Hg & _).
  split; [exact Hq | exact Hg].
Defined.

Lemma Run_sample_mode_witness :
  let '(report, w) :=
    Runner2.Run (MO := metrics1s) (AI := sound)
                (fun _ => []) (fun _ => "exp2") id id 3 slow loud in
  report = None /\ calls (trace w) = [1; 1; 1]%nat /\ teardowns (trace w) = [(1%nat, None)].
Proof.
  pose proof (Run_sample_mode (MO := metrics1s) (AI := sound)
                (fun _ => []) (fun _ => "exp2") id id 3 slow loud
                ltac:(lia) eq_refl) as Hrun.
  destruct (Runner2.Run _ _ _ _ _ _ _) as [report w].
  destruct Hrun as (Hr & _ & Hc & _ & _ & Ht & _).
  split; [exact Hr | split; [exact Hc | exact Ht]].
Defined.

Lemma addResult_order_independent_witness :
  let l1 := [ok "a"; failed "b"; failed "a"] in
  let l2 := [failed "a"; ok "a"; failed "b"] in
  let aggregate (l : list result) :=
    SpecMetrics.finalize 2%float
      <$> foldl (fun m s => Runner2.addResult (MO := SpecMetrics.ops 2%float) s m) ∅ l in
  dom (aggregate l1) = dom (aggregate l2) /\
  forall label : string,
    SpecMetrics.summary <$> (aggregate l1 !! label) =
    SpecMetrics.summary <$> (aggregate l2 !! label).
Proof.
  apply (addResult_order_independent 2%float
           [ok "a"; failed "b"; failed "a"] [failed "a"; ok "a"; failed "b"] ∅).
  etrans; [apply perm_swap|]. etrans; [apply perm_skip, perm_swap|].
  etrans; [apply perm_swap|]. apply perm_skip, perm_swap.
Defined.

Lemma rampUp_unknown_strategy_witness :
  let w : world2 := Runner2.init (MO := metrics1s) (Runner2.newRunner loud) in
  let w' := Runner2.rampUp (MO := metrics1s) (fun _ => "fast") id id w in
  attackers w' = [] /\
  resultsPipeline w' = Some (Runner2.addResultPipe (MO := metrics1s)) /\
  dispatches (trace w') = O.
Proof.
  cbn zeta.
  destruct (rampUp_unknown_strategy (MO := metrics1s) (AI := sound)
              (fun _ => "fast") id id slow
              (Runner2.init (MO := metrics1s) (Runner2.newRunner loud))
              ltac:(discriminate) ltac:(discriminate))
    as (Ha & _ & _ & _ & Hp & _ & _ & _ & Hd & _).
  split; [exact Ha | split; [exact Hp | exact Hd]].
Defined.

End Examples.

Section FurtherExamples.

Import Stub.

Abbreviation world1 := (@world SpecMetrics.t Z _ _).
Abbreviation world2 := (@world SpecMetrics.t string _ _).

Lemma run_shutdown_witness :
  let w' : world1 :=
    world_of (Runner1.run (MO := metrics1s) (AI := leaky) slow
                (Runner1.init (MO := metrics1s) (Runner1.newRunner quiet))) in
  quits (trace w') = length (goroutines (trace w')) /\
  map fst (teardowns (trace w')) = goroutines (trace w') /\
  goroutines (trace w') = attackers w'.
Proof.
  apply (run_shutdown (MO := metrics1s) (AI := leaky) slow quiet).
  vm_compute. reflexivity.
Defined.


(** The outcome of each ramp-up second of [slow] carries the label of the
    full attack, yet the final record counts the two outcomes of the full
    attack only. *)
Example run_slow_counts_full_attack_only :
  let w' : world1 :=
    world_of (Runner1.run (MO := metrics1s) (AI := sound) slow
                (Runner1.init (MO := metrics1s) (Runner1.newRunner quiet))) in
  SpecMetrics.summary <$> (metrics w' !! 0) = Some (2, 1, 2%float).
Proof. vm_compute. reflexivity. Qed.

Lemma stepRate_ramps_to_RPS_witness :
  1 <= Runner1.stepRate quiet 2 /\
  Runner1.stepRate quiet 2 <= Runner1.stepRate quiet 4 /\
  Runner1.stepRate quiet 4 <= RPS quiet /\
  Runner1.stepRate quiet (RampupTimeSec quiet) = RPS quiet.
Proof.
  apply (stepRate_ramps_to_RPS quiet 2 4); cbn; unfold GoInt.max_int; lia.
Defined.

Lemma rampUp_panics_iff_witness :
  let c := mkConfig 10 20 0 10 "" true in
  exists w' : world1,
    Runner1.rampUp (MO := metrics1s) (AI := sound) slow
      (Runner1.init (MO := metrics1s) (Runner1.newRunner c)) = Panics w'.
Proof.
  cbn zeta.
  apply (proj1 (rampUp_panics_iff (MO := metrics1s) (AI := sound) slow
           (Runner1.init (MO := metrics1s)
              (Runner1.newRunner (mkConfig 10 20 0 10 "" true))))).
  split; [reflexivity | cbn; lia].
Defined.

Lemma Run_invalid_config_witness :
  let '(report, w) :=
    Runner2.Run (MO := metrics1s) (AI := sound)
                (fun _ => ["RPS must be positive"; "attack time too short"])
                (fun _ => "linear") id id 0 slow (mkConfig 0 1 0 10 "" false) in
  report = None /\
  trace w = [EvValidate; EvPrint "RPS must be positive";
             EvPrint "attack time too short"; EvPrint ""; EvUsage; EvExit 0] /\
  clones (trace w) = [].
Proof.
  pose proof (Run_invalid_config (MO := metrics1s) (AI := sound)
                (fun _ => ["RPS must be positive"; "attack time too short"])
                (fun _ => "linear") id id 0 slow (mkConfig 0 1 0 10 "" false)
                ltac:(lia) ltac:(discriminate)) as Hrun.
  destruct (Runner2.Run _ _ _ _ _ _ _) as [report w].
  destruct Hrun as (Hr & Ht & _ & _ & Hc & _).
  split; [exact Hr | split; [exact Ht | exact Hc]].
Defined.

Lemma rampUp_zero_seconds_witness :
  let w : world1 :=
    Runner1.init (MO := metrics1s) (Runner1.newRunner (mkConfig 10 20 0 10 "" false)) in
  let w' := world_of (Runner1.rampUp (MO := metrics1s) (AI := sound) slow w) in
  attackers w' = [1%nat] /\ spawnCalls w' = 1%nat /\ dispatches (trace w') = O.
Proof.
  cbn zeta.
  destruct (rampUp_zero_seconds (MO := metrics1s) (AI := sound) slow
              (Runner1.init (MO := metrics1s)
                 (Runner1.newRunner (mkConfig 10 20 0 10 "" false)))
              ltac:(cbn; lia)) as (_ & Ha & Hk & Hd).
  split; [exact Ha | split; [exact Hk | exact Hd]].
Defined.

End FurtherExamples.
